(** * Target trial emulation notebook (TTE-v1): tables, stages and their laws

    The notebook runs four cells over pandas tables: it loads [data], attaches
    censoring weights to it, expands it into trial entries with
    [expand_trials], and prepares the expanded table for a weighted GLM.

    A cell holds a number, written here as an exact rational ([Q]); its
    column is int64 or float64 (a categorical column counts with the dtype
    of its categories).  The arithmetic of cells 2 and 4 is exact: its
    rounding and NaN are outside the model.  One conversion is modelled,
    because the copy made by [expand_trials] depends on it: [df.iterrows()]
    converts the int64 cells of a table that also has float64 columns to
    float64, which rounds an integer beyond 2^53.  The two regressions are
    delegated by the notebook to statsmodels; they appear below as the
    interface [Statsmodels].  Reading the CSV file, printing and plotting are
    left out. *)

From Stdlib Require Import QArith Qround Lia Lqa.
From stdpp Require Import base gmap strings list.

Local Open Scope string_scope.
Local Open Scope list_scope.

(** ** Exceptions *)

Inductive error : Type :=
  | KeyError (label : string)
  | NameError (name : string)
  | PatsyError
  | StatsmodelsError (name : string).

Inductive result (A : Type) : Type :=
  | OK (a : A)
  | Raise (e : error).
Arguments OK {A} a.
Arguments Raise {A} e.

#[global] Instance result_ret : MRet result := λ A a, OK a.
#[global] Instance result_bind : MBind result := λ A B k m,
  match m with
  | OK a => k a
  | Raise e => Raise e
  end.

(** ** Tables

    A [Series] is one labelled row; a [DataFrame] has a set of column labels,
    the set of those whose dtype is int64 (the others are float64), and its
    rows in index order.  In a real frame every row carries exactly the
    frame's columns ([wf_frame]). *)

Inductive dtype : Type := int64 | float64.

Abbreviation Series := (gmap string Q).

Record DataFrame : Type := mkDataFrame {
  columns : gset string;
  ints : gset string;
  rows : list Series
}.

Definition dtype_of (df : DataFrame) (label : string) : dtype :=
  if decide (label ∈ ints df) then int64 else float64.

Definition wf_frame (df : DataFrame) : Prop :=
  Forall (λ r : Series, dom r = columns df) (rows df).

(** [row[label]] *)
Definition Series_getitem (row : Series) (label : string) : result Q :=
  match row !! label with
  | Some v => OK v
  | None => Raise (KeyError label)
  end.

(** [pd.DataFrame(list_of_series)], for Series that all have dtype [dt]:
    the columns are the labels met in the rows, each with dtype [dt]; an
    empty list gives a frame with no column at all. *)
Definition DataFrame_of_rows (dt : dtype) (rs : list Series) : DataFrame :=
  {| columns := ⋃ (dom <$> rs);
     ints := match dt with int64 => ⋃ (dom <$> rs) | float64 => ∅ end;
     rows := rs |}.

(** ** int64 to float64

    The double nearest to the integer [z], ties to even.  Integers below
    2^53 in magnitude are doubles already; beyond, a double keeps 53 bits. *)
Definition float64_of_int (z : Z) : Z :=
  let a := Z.abs z in
  if (a <? 2 ^ 53)%Z then z
  else
    let ulp := (2 ^ (Z.log2 a - 52))%Z in
    let q := (a / ulp)%Z in
    let r := (a mod ulp)%Z in
    let half := (ulp / 2)%Z in
    let q' :=
      if (r <? half)%Z then q
      else if (half <? r)%Z then (q + 1)%Z
      else if Z.even q then q else (q + 1)%Z in
    (Z.sgn z * (q' * ulp))%Z.

(** A cell of an int64 column converted to float64.  The cell is returned as
    it is unless it holds an integer of magnitude 2^53 or more. *)
Definition astype_float64 (v : Q) : Q :=
  if Qeq_bool v (inject_Z (Qfloor v)) && (2 ^ 53 <=? Z.abs (Qfloor v))%Z
  then inject_Z (float64_of_int (Qfloor v))
  else v.

(** [df.iterrows()]: each row as a Series of one dtype.  When every column
    is int64 the rows come out as they are, as int64 Series; otherwise the
    Series are float64 and the cells of the int64 columns are converted. *)
Definition all_int64 (df : DataFrame) : bool :=
  bool_decide (columns df ⊆ ints df).

Definition Series_dtype (df : DataFrame) : dtype :=
  if all_int64 df then int64 else float64.

(** The cell [v] of column [label] as it sits in the yielded Series. *)
Definition iterrows_cell (df : DataFrame) (label : string) (v : Q) : Q :=
  if all_int64 df then v
  else if decide (label ∈ ints df) then astype_float64 v
  else v.

Definition iterrow (df : DataFrame) (row : Series) : Series :=
  map_imap (λ label v, Some (iterrows_cell df label v)) row.

Definition iterrows (df : DataFrame) : list Series := iterrow df <$> rows df.

(** ** Cell 3: [expand_trials] *)

(** The body of the [for] loop, with [expanded_rows] as the accumulator that
    the source appends to. *)
Fixpoint expand_loop (it : list Series) (expanded_rows : list Series)
  : result (list Series) :=
  match it with
  | [] => OK expanded_rows
  | row :: it' =>
      eligible ← Series_getitem row "eligible";
      if Qeq_bool eligible 1 then
        let new_row := row in
        period ← Series_getitem row "period";
        let new_row := <["trial_period" := period]> new_row in
        let new_row := <["followup_time" := 0%Q]> new_row in
        expand_loop it' (expanded_rows ++ [new_row])
      else
        expand_loop it' expanded_rows
  end.

Definition expand_trials (df : DataFrame) : result DataFrame :=
  expanded_rows ← expand_loop (iterrows df) [];
  OK (DataFrame_of_rows (Series_dtype df) expanded_rows).

(** Rows that pass the test [row['eligible'] == 1]. *)
Definition is_eligible (row : Series) : bool :=
  match row !! "eligible" with
  | Some v => Qeq_bool v 1
  | None => false
  end.

(** ** Columns of a frame *)

(** [df[label]]: the column as a list of cells, in row order. *)
Definition getitem (df : DataFrame) (label : string) : result (list Q) :=
  if decide (label ∈ columns df) then
    match mapM (λ r : Series, r !! label) (rows df) with
    | Some col => OK col
    | None => Raise (KeyError label)
    end
  else Raise (KeyError label).

(** Row by row, the cells of [col] are written under [label]; a row that
    [col] does not reach gets a missing cell (pandas aligns on the index). *)
Fixpoint assign_column (label : string) (rs : list Series) (col : list Q)
  : list Series :=
  match rs, col with
  | [], _ => []
  | r :: rs', [] => delete label r :: assign_column label rs' []
  | r :: rs', v :: col' => <[label := v]> r :: assign_column label rs' col'
  end.

(** [df[label] = col], for a column of dtype [dt]: the state of the frame
    object after the assignment. *)
Definition setitem_as (dt : dtype) (df : DataFrame) (label : string)
    (col : list Q) : DataFrame :=
  {| columns := columns df ∪ {[label]};
     ints := match dt with
             | int64 => ints df ∪ {[label]}
             | float64 => ints df ∖ {[label]}
             end;
     rows := assign_column label (rows df) col |}.

(** The assignment of a float64 column. *)
Abbreviation setitem := (setitem_as float64).

(** A column named in a model formula is fetched by patsy, which raises its
    own error when the table has no such column. *)
Definition formula_column (df : DataFrame) (label : string)
  : result (list Q) :=
  match getitem df label with
  | OK col => OK col
  | Raise _ => Raise PatsyError
  end.

(** [col.apply(f)] and the element-wise arithmetic on a column *)
Definition Series_apply (f : Q → Q) (col : list Q) : list Q := f <$> col.

(** [col.clip(lower=lo)]: a cell below [lo] becomes [lo]. *)
Definition clip_cell (lo p : Q) : Q := if Qlt_le_dec p lo then lo else p.

Definition clip_lower (lo : Q) (col : list Q) : list Q := clip_cell lo <$> col.

(** Python's [min(a, b)]: [b] when [b < a], else [a]. *)
Definition py_min (a b : Q) : Q := if Qlt_le_dec b a then b else a.

(** ** [Series.quantile] with the default linear interpolation

    The position [(n - 1) * q] in the sorted values is split into its floor
    and its fraction; the result interpolates between the two neighbours.
    An empty column has no quantile (pandas answers NaN). *)

Fixpoint insert_sorted (x : Q) (l : list Q) : list Q :=
  match l with
  | [] => [x]
  | y :: l' => if Qle_bool x y then x :: l else y :: insert_sorted x l'
  end.

Definition sort_values (col : list Q) : list Q := foldr insert_sorted [] col.

Definition quantile (col : list Q) (q : Q) : option Q :=
  match col with
  | [] => None
  | _ :: _ =>
      let s := sort_values col in
      let last := (Z.of_nat (length col) - 1)%Z in
      let h := (inject_Z last * q)%Q in
      let lo := Qfloor h in
      let hi := Z.min (lo + 1) last in
      let g := (h - inject_Z lo)%Q in
      let a := nth (Z.to_nat lo) s 0%Q in
      let b := nth (Z.to_nat hi) s 0%Q in
      Some (a + (b - a) * g)%Q
  end.

(** [lambda w: min(w, q99)]; against a NaN bound every comparison is false
    and [min] keeps [w]. *)
Definition min_with (q99 : option Q) (w : Q) : Q :=
  match q99 with
  | Some q => py_min w q
  | None => w
  end.

(** Lines 306-307 on a bare column: the percentile, then the clip. *)
Definition winsorize (col : list Q) : list Q :=
  let q99 := quantile col (99 # 100) in
  Series_apply (min_with q99) col.

(** ** The regression library

    statsmodels is an external collaborator: the notebook hands it columns
    and gets fitted models back, unless the fit raises (an exception of the
    library is a [StatsmodelsError]).  [logit_predict m x2 x1] is the fitted
    probability at one row's covariates. *)

Class Statsmodels : Type := {
  LogitResults : Type;
  logit_fit : list Q → list (Q * Q) → result LogitResults;
  logit_predict : LogitResults → Q → Q → Q;
  GLMResults : Type;
  glm_fit : list Q → list (string * list Q) → list Q → result GLMResults
}.

(** A logistic model predicts probabilities. *)
Definition predicts_probabilities (SM : Statsmodels) : Prop :=
  ∀ (m : LogitResults) (x2 x1 : Q), (0 <= logit_predict m x2 x1 <= 1)%Q.

Section Stages.
Context {SM : Statsmodels}.

(** ** Cell 2: censoring weights

    [data] stands for the state of the frame object bound to the variable
    [data]; each assignment updates it. *)
Definition censoring_weight_stage (data : DataFrame) : result DataFrame :=
  censored ← getitem data "censored";
  let data :=
    setitem_as (dtype_of data "censored") data "uncensored"
      (Series_apply (λ c, 1 - c)%Q censored) in
  uncensored ← formula_column data "uncensored";
  x2 ← formula_column data "x2";
  x1 ← formula_column data "x1";
  ipcw_model ← logit_fit uncensored (zip x2 x1);
  x2 ← formula_column data "x2";
  x1 ← formula_column data "x1";
  let data :=
    setitem data "p_uncensored"
      (zip_with (logit_predict ipcw_model) x2 x1) in
  p_uncensored ← getitem data "p_uncensored";
  let data := setitem data "p_uncensored" (clip_lower (1 # 100) p_uncensored) in
  p_uncensored ← getitem data "p_uncensored";
  let data := setitem data "ipcw" (Series_apply (λ p, 1 / p)%Q p_uncensored) in
  OK data.

(** ** Cell 4: the outcome model *)

(** The columns that the formula
    [outcome ~ assigned_treatment + x2 + followup_time
               + np.power(followup_time, 2) + trial_period
               + np.power(trial_period, 2)]
    hands to the GLM through patsy, named as in the model summary. *)
Definition dmatrices (df : DataFrame)
  : result (list Q * list (string * list Q)) :=
  outcome ← formula_column df "outcome";
  assigned_treatment ← formula_column df "assigned_treatment";
  x2 ← formula_column df "x2";
  followup_time ← formula_column df "followup_time";
  trial_period ← formula_column df "trial_period";
  OK (outcome,
      [ ("Intercept", (λ _ : Q, 1%Q) <$> (outcome : list Q));
        ("assigned_treatment", assigned_treatment);
        ("x2", x2);
        ("followup_time", followup_time);
        ("np.power(followup_time, 2)", (λ t, t ^ 2)%Q <$> followup_time);
        ("trial_period", trial_period);
        ("np.power(trial_period, 2)", (λ t, t ^ 2)%Q <$> trial_period) ]).

Definition outcome_stage (expanded_data : DataFrame)
  : result (DataFrame * GLMResults) :=
  treatment ← getitem expanded_data "treatment";
  let expanded_data :=
    setitem_as (dtype_of expanded_data "treatment") expanded_data
      "assigned_treatment" treatment in
  ipcw ← getitem expanded_data "ipcw";
  let q99 := quantile ipcw (99 # 100) in
  ipcw ← getitem expanded_data "ipcw";
  let expanded_data :=
    setitem expanded_data "ipcw_winsor" (Series_apply (min_with q99) ipcw) in
  ipcw_winsor ← getitem expanded_data "ipcw_winsor";
  '(outcome, exog) ← dmatrices expanded_data;
  msm_model ← glm_fit outcome exog ipcw_winsor;
  OK (expanded_data, msm_model).

(** ** The notebook's objects

    Frames live in a store; a variable holds the address of its frame.
    Cells 2 and 4 assign into the frame their variable points to; cell 3
    builds a frame of its own.  A cell that raises stops the run: the store
    it would leave behind is not described. *)

Definition deref (σ : gmap nat DataFrame) (name : string) (l : nat)
  : result DataFrame :=
  match σ !! l with
  | Some df => OK df
  | None => Raise (NameError name)
  end.

Definition run_cell2 (data : nat) (σ : gmap nat DataFrame)
  : result (gmap nat DataFrame) :=
  df ← deref σ "data" data;
  df' ← censoring_weight_stage df;
  OK (<[data := df']> σ).

Definition run_cell3 (data : nat) (σ : gmap nat DataFrame)
  : result (nat * gmap nat DataFrame) :=
  df ← deref σ "data" data;
  expanded ← expand_trials df;
  let expanded_data := fresh (dom σ) in
  OK (expanded_data, <[expanded_data := expanded]> σ).

Definition run_cell4 (expanded_data : nat) (σ : gmap nat DataFrame)
  : result (gmap nat DataFrame * GLMResults) :=
  df ← deref σ "expanded_data" expanded_data;
  '(df', msm_model) ← outcome_stage df;
  OK (<[expanded_data := df']> σ, msm_model).

End Stages.

(** ** A small regression library, for running the stages on examples

    It predicts 0.9 for a row with [x2 <= 0] and 0.005 for the others. *)

Definition threshold_predict (x2 x1 : Q) : Q :=
  if Qle_bool x2 0 then 9 # 10 else 1 # 200.

#[local] Instance threshold_statsmodels : Statsmodels := {|
  LogitResults := unit;
  logit_fit := λ _ _, OK tt;
  logit_predict := λ _, threshold_predict;
  GLMResults := unit;
  glm_fit := λ _ _ _, OK tt
|}.


(** [new_row] is the trial entry made from [row]: a copy of [row] in which
    [trial_period] holds the row's [period] and [followup_time] holds 0. *)
Definition trial_entry_of (row new_row : Series) : Prop :=
  ∃ period : Q,
    row !! "period" = Some period
    ∧ new_row = <["followup_time" := 0%Q]> (<["trial_period" := period]> row).

(** The int64 columns of the observation table, as the loader reports
    them ([x3] is categorical with integer categories); the others are
    float64. *)
Definition int64_columns : gset string :=
  {[ "id"; "period"; "treatment"; "x1"; "x3"; "age"; "outcome"; "censored";
     "eligible" ]}.

(** An observation table with the rows [rs], as the loader leaves it. *)
Definition observations (rs : list Series) : DataFrame :=
  {| columns := ⋃ (dom <$> rs); ints := int64_columns; rows := rs |}.

(** A small observation table: one patient, two periods, eligible at the
    first only. *)
Definition row_a : Series :=
  {[ "id" := 1%Q; "period" := 0%Q; "treatment" := 1%Q; "x1" := 1%Q;
     "x2" := 115 # 100; "outcome" := 0%Q; "censored" := 0%Q;
     "eligible" := 1%Q ]}.

Definition row_b : Series :=
  {[ "id" := 1%Q; "period" := 1%Q; "treatment" := 1%Q; "x1" := 1%Q;
     "x2" := 0%Q; "outcome" := 0%Q; "censored" := 0%Q;
     "eligible" := 0%Q ]}.

Definition two_periods : DataFrame := observations [row_a; row_b].

(** The same table with a second patient, eligible at period 0. *)
Definition row_c : Series :=
  {[ "id" := 2%Q; "period" := 0%Q; "treatment" := 0%Q; "x1" := 1%Q;
     "x2" := - (8 # 10); "outcome" := 0%Q; "censored" := 0%Q;
     "eligible" := 1%Q ]}.

Definition cohort : DataFrame := observations [row_a; row_b; row_c].

(** [cohort] after cell 2 and its expansion after cell 3, with the stand-in
    regression. *)
Definition weighted_cohort : DataFrame :=
  Eval vm_compute in
  match censoring_weight_stage (SM := threshold_statsmodels) cohort with
  | OK data => data
  | Raise _ => cohort
  end.

Definition expanded_cohort : DataFrame :=
  Eval vm_compute in
  match expand_trials weighted_cohort with
  | OK e => e
  | Raise _ => DataFrame_of_rows float64 []
  end.

(** [df'] has the columns of [df] and those in [L], and agrees with [df],
    row by row, on every label outside [L]. *)
Definition unchanged_outside (L : gset string) (df df' : DataFrame) : Prop :=
  columns df' = columns df ∪ L
  ∧ Forall2 (λ r r' : Series, ∀ c : string, c ∉ L → r' !! c = r !! c)
      (rows df) (rows df').

(** A table in which nobody is eligible. *)
Definition nobody_eligible : DataFrame := observations [row_b].

(** [expanded_cohort] after cell 4. *)
Definition modelled_cohort : DataFrame :=
  Eval vm_compute in
  match outcome_stage (SM := threshold_statsmodels) expanded_cohort with
  | OK (e', _) => e'
  | Raise _ => expanded_cohort
  end.



(** Tables that lack a column the expander reads. *)
Definition no_eligible_column : DataFrame :=
  observations [ {[ "id" := 1%Q; "period" := 0%Q ]} ].

Definition no_period_column : DataFrame :=
  observations
    [ {[ "id" := 1%Q; "eligible" := 0%Q ]};
      {[ "id" := 2%Q; "eligible" := 1%Q ]} ].

(** * Properties *)

(** ** [df.iterrows()] *)

Lemma iterrow_lookup (df : DataFrame) (row : Series) (c : string) :
  iterrow df row !! c = iterrows_cell df c <$> row !! c.
Proof.
  unfold iterrow. rewrite map_lookup_imap. by destruct (row !! c).
Qed.

Lemma iterrow_dom (df : DataFrame) (row : Series) :
  dom (iterrow df row) = dom row.
Proof.
  apply set_eq. intros c. rewrite !elem_of_dom, iterrow_lookup.
  by rewrite fmap_is_Some.
Qed.

Lemma astype_float64_small (v : Q) :
  (Z.abs (Qfloor v) < 2 ^ 53)%Z → astype_float64 v = v.
Proof.
  intros Hsmall. unfold astype_float64.
  destruct (2 ^ 53 <=? Z.abs (Qfloor v))%Z eqn:Hbig.
  - apply Z.leb_le in Hbig. lia.
  - by rewrite andb_false_r.
Qed.

(** A yielded cell is the cell itself on an all-int64 table, in a float64
    column, and wherever the integer fits 53 bits. *)
Lemma iterrows_cell_exact (df : DataFrame) (c : string) (v : Q) :
  all_int64 df = true ∨ c ∉ ints df ∨ (Z.abs (Qfloor v) < 2 ^ 53)%Z →
  iterrows_cell df c v = v.
Proof.
  unfold iterrows_cell. intros [->|[Hc|Hv]]; [done| |].
  - destruct (all_int64 df); [done|]. by rewrite decide_False.
  - destruct (all_int64 df); [done|].
    case_decide; [by apply astype_float64_small|done].
Qed.

Lemma float64_of_int_large (z : Z) :
  (2 ^ 53 <= Z.abs z)%Z → (2 ^ 53 <= Z.abs (float64_of_int z))%Z.
Proof.
  intros Hbig. unfold float64_of_int.
  destruct (Z.abs z <? 2 ^ 53)%Z eqn:Hlt; [apply Z.ltb_lt in Hlt; lia|].
  clear Hlt.
  assert (Hz : Z.abs (Z.sgn z) = 1%Z) by lia.
  set (a := Z.abs z) in *.
  assert (Ha : (0 < a)%Z) by lia.
  assert (Hlog : (53 <= Z.log2 a)%Z) by (by apply Z.log2_le_pow2).
  set (e := (Z.log2 a - 52)%Z).
  assert (He : (1 <= e)%Z) by (unfold e; lia).
  set (ulp := (2 ^ e)%Z).
  assert (Hulp : (2 <= ulp)%Z).
  { unfold ulp. change 2%Z with (2 ^ 1)%Z at 1.
    apply Z.pow_le_mono_r; lia. }
  assert (Hq : (2 ^ 52 <= a / ulp)%Z).
  { apply Z.div_le_lower_bound; [lia|].
    unfold ulp. rewrite <- Z.pow_add_r by lia.
    replace (e + 52)%Z with (Z.log2 a) by (unfold e; lia).
    by apply Z.log2_spec. }
  set (q := (a / ulp)%Z) in *.
  set (q' := if (a mod ulp <? ulp / 2)%Z then q
             else if (ulp / 2 <? a mod ulp)%Z then (q + 1)%Z
             else if Z.even q then q else (q + 1)%Z).
  assert (Hq' : (q <= q')%Z).
  { unfold q'. destruct (_ <? _)%Z; [lia|].
    destruct (_ <? _)%Z; [lia|]. destruct (Z.even q); lia. }
  assert (Hprod : (2 ^ 53 <= q' * ulp)%Z).
  { change (2 ^ 53)%Z with (2 ^ 52 * 2)%Z.
    apply Z.mul_le_mono_nonneg; lia. }
  rewrite Z.abs_mul, Hz. lia.
Qed.

(** The conversion never creates nor destroys a 1: the eligibility test gives
    the same answer on a yielded row as on the row of the table. *)
Lemma iterrows_cell_is_1 (df : DataFrame) (c : string) (v : Q) :
  Qeq_bool (iterrows_cell df c v) 1 = Qeq_bool v 1.
Proof.
  unfold iterrows_cell. destruct (all_int64 df); [done|].
  case_decide; [|done]. unfold astype_float64.
  destruct (Qeq_bool v (inject_Z (Qfloor v))) eqn:Hint; [|done].
  destruct (2 ^ 53 <=? Z.abs (Qfloor v))%Z eqn:Hbig; [|done]. simpl.
  apply Z.leb_le in Hbig. apply Qeq_bool_iff in Hint.
  pose proof (float64_of_int_large _ Hbig) as Hbig'.
  assert (H1 : Qeq_bool (inject_Z (float64_of_int (Qfloor v))) 1 = false).
  { destruct (Qeq_bool _ 1) eqn:E; [|done]. apply Qeq_bool_iff in E.
    change 1%Q with (inject_Z 1) in E. rewrite inject_Z_injective in E.
    rewrite E in Hbig'. by vm_compute in Hbig'. }
  assert (H2 : Qeq_bool v 1 = false).
  { destruct (Qeq_bool v 1) eqn:E; [|done]. apply Qeq_bool_iff in E.
    rewrite (Qfloor_comp _ _ E) in Hbig. by vm_compute in Hbig. }
  by rewrite H1, H2.
Qed.

Lemma iterrow_is_eligible (df : DataFrame) (row : Series) :
  is_eligible (iterrow df row) = is_eligible row.
Proof.
  unfold is_eligible. rewrite iterrow_lookup.
  destruct (row !! "eligible") as [v|]; [|done]. simpl.
  apply iterrows_cell_is_1.
Qed.

Lemma iterrows_filter (df : DataFrame) :
  List.filter is_eligible (iterrows df)
  = iterrow df <$> List.filter is_eligible (rows df).
Proof.
  unfold iterrows. generalize (rows df). intros rs.
  induction rs as [|row rs IH]; [done|].
  rewrite fmap_cons. cbn [List.filter]. rewrite iterrow_is_eligible.
  destruct (is_eligible row); by rewrite ?fmap_cons, IH.
Qed.

Lemma iterrows_Forall (P : Series → Prop) (df : DataFrame) :
  (∀ row, P row → P (iterrow df row)) →
  Forall P (rows df) → Forall P (iterrows df).
Proof.
  intros HP H. unfold iterrows. apply Forall_fmap.
  eapply Forall_impl; [exact H|]. exact HP.
Qed.

Lemma iterrows_is_Some (df : DataFrame) (c : string) :
  Forall (λ r : Series, is_Some (r !! c)) (rows df) →
  Forall (λ r : Series, is_Some (r !! c)) (iterrows df).
Proof.
  apply iterrows_Forall. intros row H. rewrite iterrow_lookup.
  by apply fmap_is_Some.
Qed.

Lemma iterrows_is_None (df : DataFrame) (c : string) :
  Forall (λ r : Series, r !! c = None) (rows df) →
  Forall (λ r : Series, r !! c = None) (iterrows df).
Proof.
  apply iterrows_Forall. intros row H. by rewrite iterrow_lookup, H.
Qed.

(** A row that [iterrows] yields as it is. *)
Lemma iterrow_exact (df : DataFrame) (row : Series) :
  (all_int64 df = true
   ∨ ∀ c v, row !! c = Some v → c ∈ ints df →
       (Z.abs (Qfloor v) < 2 ^ 53)%Z) →
  iterrow df row = row.
Proof.
  intros H. apply map_eq. intros c. rewrite iterrow_lookup.
  destruct (row !! c) as [v|] eqn:Hv; [|done]. simpl. f_equal.
  apply iterrows_cell_exact. destruct H as [H|H]; [by left|].
  destruct (decide (c ∈ ints df)); [|by right; left].
  right. right. by apply (H c).
Qed.

(** On the table returned by [expand_trials] itself nothing is left to
    convert. *)
Lemma iterrows_of_rows (dt : dtype) (rs : list Series) :
  iterrows (DataFrame_of_rows dt rs) = rs.
Proof.
  unfold iterrows. simpl. transitivity (id <$> rs); [|apply list_fmap_id].
  apply list_fmap_ext. intros i row _. simpl. apply iterrow_exact.
  destruct dt.
  - left. unfold all_int64. by apply bool_decide_eq_true.
  - right. intros c v _ Hc. simpl in Hc. by apply not_elem_of_empty in Hc.
Qed.

(** ** The expander *)

Lemma expand_loop_inv (it acc res : list Series) :
  expand_loop it acc = OK res →
  ∃ out, res = acc ++ out
         ∧ Forall2 trial_entry_of (List.filter is_eligible it) out.
Proof.
  revert acc res. induction it as [|row it IH]; intros acc res; simpl.
  - intros [= <-]. exists []. by rewrite app_nil_r.
  - unfold Series_getitem, is_eligible.
    destruct (row !! "eligible") as [v|] eqn:Hel; simpl; [|done].
    destruct (Qeq_bool v 1); [|by apply IH].
    destruct (row !! "period") as [p|] eqn:Hp; simpl; [|done].
    intros (out & -> & Hout)%IH.
    eexists (_ :: out). split; [by rewrite <- app_assoc|].
    constructor; [|done]. by exists p.
Qed.

Lemma expand_loop_total (it acc : list Series) :
  Forall (λ r : Series, is_Some (r !! "eligible") ∧ is_Some (r !! "period")) it →
  ∃ res, expand_loop it acc = OK res.
Proof.
  intros H. revert acc. induction H as [|row it [[v Hv] [p Hp]] _ IH];
    intros acc; simpl; [by eexists|].
  unfold Series_getitem. rewrite Hv, Hp. simpl.
  destruct (Qeq_bool v 1); apply IH.
Qed.

Lemma wf_frame_lookup (df : DataFrame) (c : string) :
  wf_frame df → c ∈ columns df →
  Forall (λ r : Series, is_Some (r !! c)) (rows df).
Proof.
  intros Hwf Hc. eapply Forall_impl; [exact Hwf|].
  intros r Hr. simpl in Hr. apply elem_of_dom. by rewrite Hr.
Qed.

(** The rows of an expansion are, in order, the trial entries of the
    eligible rows as [iterrows] yields them. *)
Lemma expand_trials_inv (df e : DataFrame) :
  expand_trials df = OK e →
  Forall2 (λ row new_row : Series, trial_entry_of (iterrow df row) new_row)
    (List.filter is_eligible (rows df)) (rows e).
Proof.
  unfold expand_trials.
  destruct (expand_loop (iterrows df) []) as [res|] eqn:Hloop; simpl; [|done].
  intros [= <-]. apply expand_loop_inv in Hloop as (out & -> & Hout).
  simpl. rewrite iterrows_filter in Hout.
  exact (proj1 (Forall2_fmap_l _ _ _ _) Hout).
Qed.

Lemma expand_trials_total (df : DataFrame) :
  wf_frame df → "eligible" ∈ columns df → "period" ∈ columns df →
  ∃ e, expand_trials df = OK e.
Proof.
  intros Hwf Hel Hp.
  destruct (expand_loop_total (iterrows df) []) as [res Hres].
  { pose proof (iterrows_is_Some _ _ (wf_frame_lookup _ _ Hwf Hel)) as H1.
    pose proof (iterrows_is_Some _ _ (wf_frame_lookup _ _ Hwf Hp)) as H2.
    rewrite Forall_forall in *. intros r Hr. split; auto. }
  eexists. unfold expand_trials. by rewrite Hres.
Qed.

Lemma trial_entry_of_lookup (row new_row : Series) (c : string) :
  trial_entry_of row new_row →
  c ≠ "trial_period" → c ≠ "followup_time" → new_row !! c = row !! c.
Proof. intros (p & _ & ->) H1 H2. by rewrite !lookup_insert_ne. Qed.

Lemma trial_entry_of_dom (row new_row : Series) :
  trial_entry_of row new_row →
  dom new_row = dom row ∪ {[ "trial_period"; "followup_time" ]}.
Proof.
  intros (p & _ & ->). rewrite !dom_insert_L. apply set_eq. intros c.
  rewrite !elem_of_union, !elem_of_singleton. tauto.
Qed.








(** ** Columns: reading and assigning *)

Lemma bind_OK {A B} (m : result A) (k : A → result B) (b : B) :
  m ≫= k = OK b → ∃ a, m = OK a ∧ k a = OK b.
Proof. destruct m; simpl; [eauto|done]. Qed.

(** One step through a successful run: [H : (x ← m; k) = OK b] becomes the
    result [x] of [m], with [Hx : m = OK x], and [H : k x = OK b]. *)
Tactic Notation "bind_inv" hyp(H) "as" simple_intropattern(x)
    simple_intropattern(Hx) :=
  apply bind_OK in H as (x & Hx & H).

Lemma getitem_OK (df : DataFrame) (c : string) (col : list Q) :
  getitem df c = OK col ↔
  c ∈ columns df ∧ Forall2 (λ (r : Series) v, r !! c = Some v) (rows df) col.
Proof.
  unfold getitem. case_decide as Hc; [|split; [done|by intros [? _]]].
  destruct (mapM _ _) as [col'|] eqn:E.
  - split.
    + intros [= <-]. split; [done|]. by apply mapM_Some.
    + intros [_ H%mapM_Some]. f_equal. apply (inj Some).
      etrans; [symmetry; exact E|exact H].
  - split; [done|]. intros [_ H%mapM_Some].
    enough (@None (list Q) = Some col) by done.
    etrans; [symmetry; exact E|exact H].
Qed.

Lemma getitem_length (df : DataFrame) (c : string) (col : list Q) :
  getitem df c = OK col → length col = length (rows df).
Proof. intros [_ H]%getitem_OK. symmetry. by eapply Forall2_length. Qed.

Lemma assign_column_length (c : string) (rs : list Series) (col : list Q) :
  length (assign_column c rs col) = length rs.
Proof.
  revert col. induction rs as [|r rs IH]; intros [|v col]; simpl; auto.
Qed.

Lemma setitem_length {dt : dtype} (df : DataFrame) (c : string)
    (col : list Q) :
  length (rows (setitem_as dt df c col)) = length (rows df).
Proof. apply assign_column_length. Qed.

Lemma mapM_assign_column_ne (c c' : string) (rs : list Series) (col : list Q) :
  c ≠ c' →
  mapM (λ r : Series, r !! c') (assign_column c rs col)
  = mapM (λ r : Series, r !! c') rs.
Proof.
  intros Hne. revert col.
  induction rs as [|r rs IH]; intros [|v col]; simpl; [done..| |].
  - by rewrite lookup_delete_ne, IH.
  - by rewrite lookup_insert_ne, IH.
Qed.

Lemma mapM_assign_column (c : string) (rs : list Series) (col : list Q) :
  length col = length rs →
  mapM (λ r : Series, r !! c) (assign_column c rs col) = Some col.
Proof.
  revert col. induction rs as [|r rs IH]; intros [|v col]; simpl; try done.
  intros [= Hlen]. by rewrite lookup_insert_eq, IH.
Qed.

Lemma getitem_setitem_ne {dt : dtype} (df : DataFrame) (c c' : string)
    (col : list Q) :
  c ≠ c' → getitem (setitem_as dt df c col) c' = getitem df c'.
Proof.
  intros Hne. unfold getitem, setitem_as. simpl.
  rewrite mapM_assign_column_ne by done.
  destruct (decide (c' ∈ columns df ∪ {[c]})) as [H1|H1],
    (decide (c' ∈ columns df)) as [H2|H2]; try done.
  - apply elem_of_union in H1 as [H1|H1%elem_of_singleton]; [done|].
    by destruct Hne.
  - destruct H1. apply elem_of_union. by left.
Qed.

Lemma getitem_setitem {dt : dtype} (df : DataFrame) (c : string)
    (col : list Q) :
  length col = length (rows df) → getitem (setitem_as dt df c col) c = OK col.
Proof.
  intros Hlen. unfold getitem, setitem_as. simpl.
  rewrite mapM_assign_column by done.
  case_decide as Hc; [done|]. destruct Hc.
  apply elem_of_union. right. by apply elem_of_singleton.
Qed.

Lemma formula_column_OK (df : DataFrame) (c : string) (col : list Q) :
  formula_column df c = OK col ↔ getitem df c = OK col.
Proof.
  unfold formula_column. destruct (getitem df c); [done|].
  split; intros H; discriminate H.
Qed.

Lemma formula_column_of (df : DataFrame) (c : string) (col : list Q) :
  getitem df c = OK col → formula_column df c = OK col.
Proof. apply formula_column_OK. Qed.

Lemma formula_column_setitem_ne {dt : dtype} (df : DataFrame) (c c' : string)
    (col : list Q) :
  c ≠ c' → formula_column (setitem_as dt df c col) c' = formula_column df c'.
Proof. intros Hne. unfold formula_column. by rewrite getitem_setitem_ne. Qed.

Lemma formula_column_setitem {dt : dtype} (df : DataFrame) (c : string)
    (col : list Q) :
  length col = length (rows df) →
  formula_column (setitem_as dt df c col) c = OK col.
Proof. intros Hlen. unfold formula_column. by rewrite getitem_setitem. Qed.

Lemma setitem_frame {dt : dtype} (df : DataFrame) (c : string)
    (col : list Q) :
  Forall2 (λ r r' : Series, ∀ c' : string, c' ≠ c → r' !! c' = r !! c')
    (rows df) (rows (setitem_as dt df c col)).
Proof.
  unfold setitem_as. simpl. generalize (rows df). intros rs. revert col.
  induction rs as [|r rs IH]; intros [|v col]; simpl; constructor; auto.
  - intros c' Hne. by rewrite lookup_delete_ne.
  - intros c' Hne. by rewrite lookup_insert_ne.
Qed.

Lemma getitem_total (df : DataFrame) (c : string) :
  wf_frame df → c ∈ columns df → ∃ col, getitem df c = OK col.
Proof.
  intros Hwf Hc. unfold getitem. rewrite decide_True by done.
  destruct (mapM_is_Some_2 (λ r : Series, r !! c) (rows df)) as [col ->];
    [by apply wf_frame_lookup|by eexists].
Qed.

(** Two columns read from one frame describe its rows cell by cell. *)
Lemma getitem_rows2 (R : Q → Q → Prop) (df : DataFrame) (c1 c2 : string)
    (k1 k2 : list Q) :
  getitem df c1 = OK k1 → getitem df c2 = OK k2 → Forall2 R k1 k2 →
  Forall (λ r : Series,
            ∃ v1 v2, r !! c1 = Some v1 ∧ r !! c2 = Some v2 ∧ R v1 v2)
    (rows df).
Proof.
  intros [_ H1]%getitem_OK [_ H2]%getitem_OK HR.
  apply Forall_lookup. intros i r Hr.
  destruct (Forall2_lookup_l _ _ _ _ _ H1 Hr) as (v1 & Hv1 & Hc1).
  destruct (Forall2_lookup_l _ _ _ _ _ H2 Hr) as (v2 & Hv2 & Hc2).
  exists v1, v2. repeat split; [done..|].
  by eapply Forall2_lookup_lr.
Qed.

Section StageFacts.
Context {SM : Statsmodels}.

(** ** Cell 2 *)

Lemma censoring_weight_stage_inv (data data' : DataFrame) :
  censoring_weight_stage data = OK data' →
  ∃ censored x2 x1 m,
    getitem data "censored" = OK censored
    ∧ getitem data "x2" = OK x2
    ∧ getitem data "x1" = OK x1
    ∧ logit_fit (Series_apply (λ c, 1 - c)%Q censored) (zip x2 x1) = OK m
    ∧ data' =
        let predicted := zip_with (logit_predict m) x2 x1 in
        let p_uncensored := clip_lower (1 # 100) predicted in
        setitem
          (setitem
             (setitem
                (setitem_as (dtype_of data "censored") data "uncensored"
                   (Series_apply (λ c, 1 - c)%Q censored))
                "p_uncensored" predicted)
             "p_uncensored" p_uncensored)
          "ipcw" (Series_apply (λ p, 1 / p)%Q p_uncensored).
Proof.
  unfold censoring_weight_stage. intros H.
  bind_inv H as censored Hcens. cbv zeta in H.
  assert (Hlen : length (Series_apply (λ c, 1 - c)%Q censored)
                 = length (rows data)).
  { unfold Series_apply. rewrite length_fmap. by eapply getitem_length. }
  rewrite formula_column_setitem in H by done. simpl in H.
  rewrite !formula_column_setitem_ne in H by done.
  bind_inv H as x2 Hx2.
  bind_inv H as x1 Hx1.
  bind_inv H as m Hm.
  rewrite Hx2, Hx1 in H. simpl in H.
  apply formula_column_OK in Hx2, Hx1.
  assert (Hlenp : length (zip_with (logit_predict m) x2 x1)
                  = length (rows data)).
  { rewrite length_zip_with.
    rewrite (getitem_length _ _ _ Hx2), (getitem_length _ _ _ Hx1). lia. }
  rewrite getitem_setitem in H
    by (by unfold setitem_as; simpl; rewrite assign_column_length).
  simpl in H.
  rewrite getitem_setitem in H.
  2:{ unfold clip_lower, setitem_as. simpl.
      by rewrite length_fmap, !assign_column_length. }
  simpl in H. injection H as <-.
  by exists censored, x2, x1, m.
Qed.

(** Row by row: what cell 2 leaves under [p_uncensored] and [ipcw]. *)
Lemma censoring_weight_stage_rows (data data' : DataFrame) :
  censoring_weight_stage data = OK data' →
  ∃ censored x2 x1 m,
    getitem data "censored" = OK censored
    ∧ getitem data "x2" = OK x2
    ∧ getitem data "x1" = OK x1
    ∧ logit_fit (Series_apply (λ c, 1 - c)%Q censored) (zip x2 x1) = OK m
    ∧ Forall2
        (λ row row' : Series,
           ∃ v2 v1,
             row !! "x2" = Some v2 ∧ row !! "x1" = Some v1
             ∧ row' !! "p_uncensored"
               = Some (clip_cell (1 # 100) (logit_predict m v2 v1))
             ∧ row' !! "ipcw"
               = Some (1 / clip_cell (1 # 100) (logit_predict m v2 v1))%Q)
        (rows data) (rows data').
Proof.
  intros (censored & x2 & x1 & m & Hc & Hx2 & Hx1 & Hm & ->)
    %censoring_weight_stage_inv.
  exists censored, x2, x1, m. repeat split; [done..|]. cbv zeta.
  set (P := clip_lower (1 # 100) (zip_with (logit_predict m) x2 x1)).
  set (D2 := setitem (setitem_as _ data _ _) _ _).
  set (D3 := setitem D2 "p_uncensored" P).
  set (W := Series_apply (λ p, 1 / p)%Q P).
  pose proof (getitem_length _ _ _ Hx2) as Hl2.
  pose proof (getitem_length _ _ _ Hx1) as Hl1.
  assert (HlP : length P = length (rows data)).
  { unfold P, clip_lower. rewrite length_fmap, length_zip_with. lia. }
  assert (HP : getitem (setitem D3 "ipcw" W) "p_uncensored" = OK P).
  { rewrite getitem_setitem_ne by done. apply getitem_setitem.
    unfold D2. by rewrite !setitem_length. }
  assert (HW : getitem (setitem D3 "ipcw" W) "ipcw" = OK W).
  { apply getitem_setitem. unfold W, Series_apply, D3, D2.
    by rewrite length_fmap, !setitem_length. }
  apply getitem_OK in HP as [_ HP]. apply getitem_OK in HW as [_ HW].
  apply getitem_OK in Hx2 as [_ Hx2]. apply getitem_OK in Hx1 as [_ Hx1].
  apply Forall2_same_length_lookup_2.
  { unfold D3, D2. by rewrite !setitem_length. }
  intros i row row' Hrow Hrow'.
  destruct (Forall2_lookup_l _ _ _ _ _ Hx2 Hrow) as (v2 & Hv2 & Hr2).
  destruct (Forall2_lookup_l _ _ _ _ _ Hx1 Hrow) as (v1 & Hv1 & Hr1).
  destruct (Forall2_lookup_l _ _ _ _ _ HP Hrow') as (p & Hp & HrP).
  destruct (Forall2_lookup_l _ _ _ _ _ HW Hrow') as (w & Hw & HrW).
  exists v2, v1. repeat split; [done..| |].
  - rewrite HrP. f_equal. unfold P, clip_lower in Hp.
    rewrite list_lookup_fmap, lookup_zip_with, Hv2 in Hp. simpl in Hp.
    rewrite Hv1 in Hp. simpl in Hp. congruence.
  - rewrite HrW. f_equal. unfold W, Series_apply, P, clip_lower in Hw.
    rewrite !list_lookup_fmap, lookup_zip_with, Hv2 in Hw. simpl in Hw.
    rewrite Hv1 in Hw. simpl in Hw. congruence.
Qed.

Lemma clip_cell_ge (lo p : Q) : (lo <= clip_cell lo p)%Q.
Proof. unfold clip_cell. destruct (Qlt_le_dec p lo); [apply Qle_refl|done]. Qed.

Lemma clip_cell_le (lo p hi : Q) :
  (lo <= hi)%Q → (p <= hi)%Q → (clip_cell lo p <= hi)%Q.
Proof. unfold clip_cell. by destruct (Qlt_le_dec p lo). Qed.

Lemma clip_cell_below (lo p : Q) : (p < lo)%Q → clip_cell lo p = lo.
Proof.
  unfold clip_cell. destruct (Qlt_le_dec p lo) as [|Hle]; [done|].
  intros Hlt. exfalso. by apply (Qlt_not_le p lo).
Qed.

Lemma inverse_weight_ge_1 (p : Q) : (0 < p)%Q → (p <= 1)%Q → (1 <= 1 / p)%Q.
Proof. intros H0 H1. apply Qle_shift_div_l; [done|]. by rewrite Qmult_1_l. Qed.

Lemma inverse_weight_le_100 (p : Q) : (1 # 100 <= p)%Q → (1 / p <= 100)%Q.
Proof. intros H. apply Qle_shift_div_r; lra. Qed.

(** ** Cell 4 *)

Lemma outcome_stage_inv (e e' : DataFrame) (msm : GLMResults) :
  outcome_stage e = OK (e', msm) →
  ∃ treatment ipcw outcome exog,
    getitem e "treatment" = OK treatment
    ∧ getitem e "ipcw" = OK ipcw
    ∧ e' = setitem
               (setitem_as (dtype_of e "treatment") e "assigned_treatment"
                  treatment)
             "ipcw_winsor" (winsorize ipcw)
    ∧ dmatrices e' = OK (outcome, exog)
    ∧ glm_fit outcome exog (winsorize ipcw) = OK msm.
Proof.
  unfold outcome_stage. intros H.
  bind_inv H as treatment Htr. cbv zeta in H.
  rewrite !getitem_setitem_ne in H by done.
  bind_inv H as ipcw Hipcw.
  rewrite Hipcw in H. simpl in H.
  rewrite getitem_setitem in H.
  2:{ unfold Series_apply.
      by rewrite length_fmap, setitem_length, (getitem_length _ _ _ Hipcw). }
  simpl in H.
  apply bind_OK in H as ([outcome exog] & Hdm & H).
  apply bind_OK in H as (msm' & Hfit & [= <- <-]).
  by exists treatment, ipcw, outcome, exog.
Qed.

Lemma py_min_le (w q : Q) : (py_min w q <= q)%Q.
Proof. unfold py_min. destruct (Qlt_le_dec q w); [apply Qle_refl|done]. Qed.

Lemma py_min_below (w q : Q) : (w <= q)%Q → py_min w q = w.
Proof.
  unfold py_min. destruct (Qlt_le_dec q w) as [Hlt|]; [|done].
  intros Hle. exfalso. by apply (Qlt_not_le q w).
Qed.

Lemma quantile_is_Some (col : list Q) (q : Q) :
  col ≠ [] → is_Some (quantile col q).
Proof. destruct col; [done|]. intros _. by eexists. Qed.

(** Row by row: what cell 4 leaves under [ipcw] and [ipcw_winsor]. *)
Lemma outcome_stage_rows (e e' : DataFrame) (msm : GLMResults) :
  outcome_stage e = OK (e', msm) →
  ∃ ipcw,
    getitem e "ipcw" = OK ipcw
    ∧ getitem e' "ipcw" = OK ipcw
    ∧ getitem e' "ipcw_winsor" = OK (winsorize ipcw)
    ∧ Forall
        (λ row : Series,
           ∃ w q99 : Q,
             row !! "ipcw" = Some w
             ∧ quantile ipcw (99 # 100) = Some q99
             ∧ row !! "ipcw_winsor" = Some (py_min w q99))
        (rows e').
Proof.
  intros (treatment & ipcw & outcome & exog & Htr & Hipcw & -> & _ & _)
    %outcome_stage_inv.
  exists ipcw. split; [done|].
  assert (H1 : getitem
                 (setitem
               (setitem_as (dtype_of e "treatment") e "assigned_treatment"
                  treatment)
                    "ipcw_winsor" (winsorize ipcw)) "ipcw" = OK ipcw)
    by (by rewrite !getitem_setitem_ne).
  assert (H2 : getitem
                 (setitem
               (setitem_as (dtype_of e "treatment") e "assigned_treatment"
                  treatment)
                    "ipcw_winsor" (winsorize ipcw)) "ipcw_winsor"
               = OK (winsorize ipcw)).
  { apply getitem_setitem. unfold winsorize, Series_apply.
    by rewrite length_fmap, setitem_length, (getitem_length _ _ _ Hipcw). }
  repeat split; [done..|].
  destruct (decide (ipcw = [])) as [->|Hne].
  - apply Forall_lookup. intros i row Hrow%lookup_lt_Some.
    rewrite <- (getitem_length _ _ _ H1) in Hrow. simpl in Hrow. lia.
  - destruct (quantile_is_Some ipcw (99 # 100) Hne) as [q99 Hq].
    eapply Forall_impl.
    + apply (getitem_rows2 (λ w ww, ww = py_min w q99) _ _ _ _ _ H1 H2).
      unfold winsorize, Series_apply. rewrite Hq. simpl.
      apply Forall2_fmap_r, Forall_Forall2_diag, Forall_true. done.
    + simpl. intros row (w & ww & Hw & Hww & ->). by exists w, q99.
Qed.

End StageFacts.

(** ** The censoring weights *)

(** The weights have a ceiling: no run of cell 2 leaves an [ipcw] above 100. *)
Lemma ipcw_not_unbounded :
  ¬ ∀ B : Q,
      ∃ (SM : Statsmodels) (data data' : DataFrame) (row : Series) (w : Q),
        censoring_weight_stage data = OK data'
        ∧ row ∈ rows data' ∧ row !! "ipcw" = Some w ∧ (B < w)%Q.
Proof.
  intros H.
  destruct (H 100%Q) as (SM & data & data' & row & w & Hrun & Hin & Hw & Hlt).
  apply censoring_weight_stage_rows in Hrun
    as (censored & x2 & x1 & m & _ & _ & _ & _ & Hrows).
  apply list_elem_of_lookup in Hin as [i Hi].
  destruct (Forall2_lookup_r _ _ _ _ _ Hrows Hi)
    as (row0 & _ & v2 & v1 & _ & _ & _ & Hipcw).
  rewrite Hw in Hipcw. injection Hipcw as ->.
  apply (Qlt_not_le _ _ Hlt). apply inverse_weight_le_100, clip_cell_ge.
Qed.

(** C3 (amended).  After cell 2, whatever the regression predicts, every
    row has [p_uncensored >= 0.01] and [ipcw = 1 / p_uncensored] with
    [0 < ipcw <= 100]: the floor at 0.01 caps the weight at 100, so it is not
    unbounded above.  The cell clips from below only: [p_uncensored <= 1]
    holds for exactly the rows whose fitted probability (the prediction of
    the fitted model at the row's [x2] and [x1]) is at most 1, and
    [ipcw >= 1] for exactly the rows with [p_uncensored <= 1]. *)
Theorem censoring_weights_bounds `{SM : Statsmodels} (data data' : DataFrame) :
  censoring_weight_stage data = OK data' →
  ∃ censored x2 x1 m,
    getitem data "censored" = OK censored
    ∧ getitem data "x2" = OK x2
    ∧ getitem data "x1" = OK x1
    ∧ logit_fit (Series_apply (λ c, 1 - c)%Q censored) (zip x2 x1) = OK m
    ∧ Forall2
        (λ row row' : Series,
           ∃ v2 v1 p w : Q,
             row !! "x2" = Some v2 ∧ row !! "x1" = Some v1
             ∧ row' !! "p_uncensored" = Some p ∧ row' !! "ipcw" = Some w
             ∧ (1 # 100 <= p)%Q
             ∧ w = (1 / p)%Q ∧ (0 < w)%Q ∧ (w <= 100)%Q
             ∧ ((logit_predict m v2 v1 <= 1)%Q ↔ (p <= 1)%Q)
             ∧ ((p <= 1)%Q ↔ (1 <= w)%Q))
        (rows data) (rows data').
Proof.
  intros (censored & x2 & x1 & m & Hc & Hx2 & Hx1 & Hm & Hrows)
    %censoring_weight_stage_rows.
  exists censored, x2, x1, m. repeat split; [done..|].
  eapply Forall2_impl; [exact Hrows|]. simpl.
  intros row row' (v2 & v1 & Hv2 & Hv1 & Hp & Hw).
  pose proof (clip_cell_ge (1 # 100) (logit_predict m v2 v1)) as Hge.
  assert (Hclip : (logit_predict m v2 v1 <= 1)%Q
                  ↔ (clip_cell (1 # 100) (logit_predict m v2 v1) <= 1)%Q).
  { unfold clip_cell. destruct (Qlt_le_dec (logit_predict m v2 v1) (1 # 100));
      [|done]. split; intros _; [done|lra]. }
  set (p := clip_cell (1 # 100) (logit_predict m v2 v1)) in *.
  assert (Hpos : (0 < p)%Q) by lra.
  assert (Hinv : (0 < 1 / p)%Q).
  { unfold Qdiv. rewrite Qmult_1_l. by apply Qinv_lt_0_compat. }
  exists v2, v1, p, (1 / p)%Q.
  split; [done|]. split; [done|]. split; [done|]. split; [done|].
  split; [done|]. split; [done|]. split; [done|].
  split; [by apply inverse_weight_le_100|]. split; [done|]. split.
  - by apply inverse_weight_ge_1.
  - intros Hw1. apply (Qmult_le_compat_r _ _ p) in Hw1; [|lra].
    assert (Heq : (1 / p * p == 1)%Q) by (field; lra). lra.
Qed.

Lemma censoring_weights_bounds_witness :
  ∃ data',
    censoring_weight_stage two_periods = OK data'
    ∧ Forall
        (λ row' : Series,
           ∃ p w : Q,
             row' !! "p_uncensored" = Some p ∧ row' !! "ipcw" = Some w
             ∧ (1 # 100 <= p)%Q ∧ w = (1 / p)%Q ∧ (w <= 100)%Q)
        (rows data').
Proof.
  eexists. split; [reflexivity|].
  destruct (censoring_weights_bounds (SM := threshold_statsmodels)
              two_periods _ eq_refl)
    as (censored & x2 & x1 & m & _ & _ & _ & _ & Hrows).
  apply Forall_lookup. intros i row' Hi.
  destruct (Forall2_lookup_r _ _ _ _ _ Hrows Hi)
    as (row & _ & v2 & v1 & p & w & _ & _ & Hp & Hw & Hge & Heq & _ & Hle & _).
  by exists p, w.
Defined.

Lemma threshold_predicts_probabilities :
  predicts_probabilities threshold_statsmodels.
Proof.
  intros m x2 x1. simpl. unfold threshold_predict.
  destruct (Qle_bool x2 0); split; by vm_compute.
Qed.

(** C4.  After cell 2, a row whose fitted probability (the regression's
    prediction at the row's [x2] and [x1]) is below 0.01 has [p_uncensored]
    equal to 0.01 and [ipcw] equal to exactly 100. *)
Theorem clipped_weight_is_100 `{SM : Statsmodels} (data data' : DataFrame) :
  censoring_weight_stage data = OK data' →
  ∃ censored x2 x1 m,
    getitem data "censored" = OK censored
    ∧ getitem data "x2" = OK x2
    ∧ getitem data "x1" = OK x1
    ∧ logit_fit (Series_apply (λ c, 1 - c)%Q censored) (zip x2 x1) = OK m
    ∧ Forall2
        (λ row row' : Series,
           ∀ v2 v1 : Q,
             row !! "x2" = Some v2 → row !! "x1" = Some v1 →
             (logit_predict m v2 v1 < 1 # 100)%Q →
             row' !! "p_uncensored" = Some (1 # 100)
             ∧ row' !! "ipcw" = Some 100%Q)
        (rows data) (rows data').
Proof.
  intros (censored & x2 & x1 & m & Hc & Hx2 & Hx1 & Hm & Hrows)
    %censoring_weight_stage_rows.
  exists censored, x2, x1, m. repeat split; [done..|].
  eapply Forall2_impl; [exact Hrows|]. simpl.
  intros row row' (v2 & v1 & Hv2 & Hv1 & Hp & Hw) u2 u1 Hu2 Hu1 Hlt.
  assert (u2 = v2) as -> by congruence.
  assert (u1 = v1) as -> by congruence.
  rewrite (clip_cell_below _ _ Hlt) in Hp, Hw. done.
Qed.

Lemma clipped_weight_is_100_witness :
  ∃ data' row',
    censoring_weight_stage two_periods = OK data'
    ∧ rows data' !! 0%nat = Some row'
    ∧ (threshold_predict (115 # 100) 1 < 1 # 100)%Q
    ∧ row' !! "ipcw" = Some 100%Q.
Proof.
  destruct (clipped_weight_is_100 (SM := threshold_statsmodels) two_periods _ eq_refl)
    as (censored & x2 & x1 & m & _ & _ & _ & _ & Hrows).
  eexists _, _. split; [vm_compute; reflexivity|].
  split; [reflexivity|].
  apply Forall2_cons_1 in Hrows as [Hrow _].
  assert (Hlt : (threshold_predict (115 # 100) 1 < 1 # 100)%Q) by (by vm_compute).
  split; [exact Hlt|].
  by apply (Hrow (115 # 100) 1%Q).
Defined.

(** ** Winsorization *)

(** A second pass, percentile recomputed, moves the top weight of [cohort]:
    the 99th percentile of the clipped column lies below the first cap. *)
Lemma second_winsor_pass_changes :
  ∃ (e' : DataFrame) (col : list Q),
    outcome_stage expanded_cohort = OK (e', tt)
    ∧ getitem e' "ipcw_winsor" = OK col
    ∧ winsorize col ≠ col.
Proof.
  eexists _, _. split; [vm_compute; reflexivity|].
  split; [vm_compute; reflexivity|].
  intros H. vm_compute in H. discriminate H.
Qed.

(** C2 (amended).  After cell 4, with [q99] the 99th percentile of [ipcw]
    over the expanded table, every row has [ipcw_winsor <= q99], has
    [ipcw_winsor = ipcw] whenever [ipcw <= q99], and is left as it is by a
    second clip at the same [q99]. *)
Theorem winsorization_law `{SM : Statsmodels} (e e' : DataFrame)
    (msm : GLMResults) :
  outcome_stage e = OK (e', msm) →
  ∃ ipcw,
    getitem e "ipcw" = OK ipcw
    ∧ getitem e' "ipcw_winsor" = OK (winsorize ipcw)
    ∧ Forall
        (λ row : Series,
           ∃ w ww q99 : Q,
             row !! "ipcw" = Some w
             ∧ row !! "ipcw_winsor" = Some ww
             ∧ quantile ipcw (99 # 100) = Some q99
             ∧ (ww <= q99)%Q
             ∧ ((w <= q99)%Q → ww = w)
             ∧ py_min ww q99 = ww)
        (rows e').
Proof.
  intros (ipcw & Hipcw & _ & Hwin & Hrows)%outcome_stage_rows.
  exists ipcw. repeat split; [done..|].
  eapply Forall_impl; [exact Hrows|]. simpl.
  intros row (w & q99 & Hw & Hq & Hww).
  exists w, (py_min w q99), q99. repeat split; [done..| | |].
  - apply py_min_le.
  - apply py_min_below.
  - apply py_min_below, py_min_le.
Qed.

Lemma winsorization_law_witness :
  ∃ e',
    outcome_stage expanded_cohort = OK (e', tt)
    ∧ Forall
        (λ row : Series,
           ∃ w ww q99 : Q,
             row !! "ipcw" = Some w
             ∧ row !! "ipcw_winsor" = Some ww
             ∧ (ww <= q99)%Q ∧ ((w <= q99)%Q → ww = w))
        (rows e').
Proof.
  eexists. split; [vm_compute; reflexivity|].
  destruct (winsorization_law (SM := threshold_statsmodels) expanded_cohort _ tt eq_refl)
    as (ipcw & _ & _ & Hrows).
  eapply Forall_impl; [exact Hrows|]. simpl.
  intros row (w & ww & q99 & Hw & Hww & _ & Hle & Heq & _).
  by exists w, ww, q99.
Defined.

(** ** An empty expansion *)

Lemma expand_loop_none (it acc : list Series) :
  Forall (λ r : Series, is_Some (r !! "eligible")) it →
  Forall (λ r : Series, is_eligible r = false) it →
  expand_loop it acc = OK acc.
Proof.
  induction 1 as [|row it [v Hv] _ IH]; [done|].
  intros [Hrow Hit]%Forall_cons. simpl. unfold Series_getitem.
  unfold is_eligible in Hrow. rewrite Hv in Hrow |- *. simpl.
  rewrite Hrow. by apply IH.
Qed.

(** C6.  On an observation table with an [eligible] column and no row with
    [eligible == 1], [expand_trials] returns a table with zero rows (and no
    column), and cell 4 run on that table raises [KeyError] at its first
    statement: no model is fitted or returned. *)
Theorem empty_expansion_fails `{SM : Statsmodels} (df : DataFrame) :
  wf_frame df → "eligible" ∈ columns df →
  Forall (λ r : Series, is_eligible r = false) (rows df) →
  ∃ e, expand_trials df = OK e
       ∧ rows e = []
       ∧ outcome_stage e = Raise (KeyError "treatment").
Proof.
  intros Hwf Hel Hnone. exists (DataFrame_of_rows (Series_dtype df) []).
  unfold expand_trials.
  rewrite (expand_loop_none (iterrows df) []); [done| |].
  - by apply iterrows_is_Some, wf_frame_lookup.
  - apply iterrows_Forall; [|done]. intros row Hrow.
    by rewrite iterrow_is_eligible.
Qed.

Lemma empty_expansion_fails_witness :
  ∃ e, expand_trials nobody_eligible = OK e
       ∧ rows e = []
       ∧ outcome_stage (SM := threshold_statsmodels) e = Raise (KeyError "treatment").
Proof.
  apply (empty_expansion_fails (SM := threshold_statsmodels) nobody_eligible).
  - repeat constructor.
  - by vm_compute.
  - repeat constructor.
Defined.

(** ** The follow-up terms of the outcome model *)

Lemma expand_trials_followup_time (df e : DataFrame) :
  expand_trials df = OK e →
  Forall (λ r : Series, r !! "followup_time" = Some 0%Q) (rows e).
Proof.
  intros H%expand_trials_inv. apply Forall_lookup. intros i r' Hi.
  destruct (Forall2_lookup_r _ _ _ _ _ H Hi) as (r & _ & p & _ & ->).
  apply lookup_insert_eq.
Qed.

Lemma zero_column (df : DataFrame) (c : string) (col : list Q) :
  Forall (λ r : Series, r !! c = Some 0%Q) (rows df) →
  getitem df c = OK col → col = replicate (length (rows df)) 0%Q.
Proof.
  intros Hz [_ H]%getitem_OK. revert col Hz H. generalize (rows df).
  induction l as [|r rs IH]; intros col Hz H.
  - by apply Forall2_nil_inv_l in H as ->.
  - apply Forall2_cons_inv_l in H as (v & col' & Hv & H & ->).
    apply Forall_cons in Hz as [Hr Hz]. simpl.
    rewrite Hr in Hv. injection Hv as <-. f_equal. by apply IH.
Qed.

(** C10.  When cell 4 runs on a table returned by [expand_trials], the
    design matrix it hands to the GLM has, under [followup_time] and under
    [np.power(followup_time, 2)], a column that is 0 in every row. *)
Theorem followup_terms_are_zero `{SM : Statsmodels} (df e e' : DataFrame)
    (msm : GLMResults) :
  expand_trials df = OK e →
  outcome_stage e = OK (e', msm) →
  ∃ outcome weights intercept treatment x2 period period2,
    let zeros := replicate (length (rows e)) 0%Q in
    let exog :=
      [ ("Intercept", intercept);
        ("assigned_treatment", treatment);
        ("x2", x2);
        ("followup_time", zeros);
        ("np.power(followup_time, 2)", zeros);
        ("trial_period", period);
        ("np.power(trial_period, 2)", period2) ] in
    dmatrices e' = OK (outcome, exog)
    ∧ glm_fit outcome exog weights = OK msm.
Proof.
  intros Hexp (treatment & ipcw & outcome & exog & Htr & Hipcw & -> & Hdm & Hfit)
    %outcome_stage_inv.
  pose proof (expand_trials_followup_time _ _ Hexp) as Hzero.
  unfold dmatrices in Hdm.
  bind_inv Hdm as y Hy.
  bind_inv Hdm as a Ha.
  bind_inv Hdm as x Hx.
  bind_inv Hdm as ft Hft.
  bind_inv Hdm as tp Htp.
  injection Hdm as <- <-.
  assert (ft = replicate (length (rows e)) 0%Q) as ->.
  { apply formula_column_OK in Hft.
    rewrite !getitem_setitem_ne in Hft by done.
    by apply (zero_column _ _ _ Hzero). }
  rewrite fmap_replicate in Hfit.
  change ((0 ^ 2)%Q) with 0%Q in Hfit.
  eexists y, _, _, a, x, tp, _. cbv zeta. split; [|exact Hfit].
  unfold dmatrices. rewrite Hy, Ha, Hx, Hft, Htp. simpl.
  by rewrite fmap_replicate.
Qed.

Lemma followup_terms_are_zero_witness :
  ∃ e' exog,
    outcome_stage expanded_cohort = OK (e', tt)
    ∧ dmatrices e' = OK ([0%Q; 0%Q], exog)
    ∧ exog !! 3%nat = Some ("followup_time", [0%Q; 0%Q])
    ∧ exog !! 4%nat = Some ("np.power(followup_time, 2)", [0%Q; 0%Q]).
Proof.
  destruct (followup_terms_are_zero (SM := threshold_statsmodels)
              weighted_cohort expanded_cohort _ tt eq_refl eq_refl)
    as (outcome & weights & intercept & treatment & x2 & period & period2
        & Hdm & _).
  eexists _, _. split; [vm_compute; reflexivity|].
  split; [vm_compute; reflexivity|]. split; reflexivity.
Defined.

(** ** Who owns which table *)

Lemma unchanged_outside_setitem {dt : dtype} (df : DataFrame) (c : string)
    (col : list Q) :
  unchanged_outside {[c]} df (setitem_as dt df c col).
Proof.
  split; [done|]. eapply Forall2_impl; [apply setitem_frame|].
  simpl. intros r r' H c' Hc'. apply H. intros ->.
  by apply Hc', elem_of_singleton.
Qed.

Lemma unchanged_outside_trans (L1 L2 : gset string) (a b c : DataFrame) :
  unchanged_outside L1 a b → unchanged_outside L2 b c →
  unchanged_outside (L1 ∪ L2) a c.
Proof.
  intros [Hc1 Hr1] [Hc2 Hr2]. split.
  - rewrite Hc2, Hc1. by rewrite (assoc_L (∪)).
  - eapply Forall2_trans; [|exact Hr1|exact Hr2].
    simpl. intros r1 r2 r3 H12 H23 l Hl.
    apply not_elem_of_union in Hl as [Hl1 Hl2].
    by rewrite H23, H12.
Qed.

Lemma deref_OK (σ : gmap nat DataFrame) (name : string) (l : nat)
    (df : DataFrame) :
  deref σ name l = OK df → σ !! l = Some df.
Proof. unfold deref. destruct (σ !! l); [by intros [= ->]|done]. Qed.

(** Cell 2 writes into the loader's table: after it, the frame at the
    address of [data] is no longer the one the loader left there, and no
    frame has been added to the store. *)
Lemma cell2_mutates_its_input :
  ∃ σ' : gmap nat DataFrame,
    run_cell2 (SM := threshold_statsmodels) 0 {[ 0%nat := cohort ]} = OK σ'
    ∧ dom σ' = {[ 0%nat ]}
    ∧ σ' !! 0%nat ≠ Some cohort.
Proof.
  eexists. split; [vm_compute; reflexivity|]. split.
  - by vm_compute.
  - intros H. vm_compute in H. discriminate H.
Qed.

(** C9 (amended).  [expand_trials] (cell 3) puts its result in a new frame
    and leaves every frame of the store, its input included, as it was.
    Cells 2 and 4 allocate nothing: each writes its derived columns
    ([uncensored], [p_uncensored], [ipcw]; [assigned_treatment],
    [ipcw_winsor]) into the frame it is given, leaves every other column of
    that frame unchanged in every row, and leaves every other frame alone. *)
Theorem stage_ownership `{SM : Statsmodels} (σ : gmap nat DataFrame) :
  (∀ data σ',
     run_cell2 data σ = OK σ' →
     ∃ df df',
       σ !! data = Some df ∧ σ' = <[data := df']> σ
       ∧ unchanged_outside {[ "uncensored"; "p_uncensored"; "ipcw" ]} df df')
  ∧ (∀ data expanded_data σ',
       run_cell3 data σ = OK (expanded_data, σ') →
       (expanded_data ∉ dom σ)
       ∧ (∃ e, σ' = <[expanded_data := e]> σ)
       ∧ (∀ l, l ∈ dom σ → σ' !! l = σ !! l))
  ∧ (∀ expanded_data σ' msm,
       run_cell4 expanded_data σ = OK (σ', msm) →
       ∃ df df',
         σ !! expanded_data = Some df ∧ σ' = <[expanded_data := df']> σ
         ∧ unchanged_outside {[ "assigned_treatment"; "ipcw_winsor" ]} df df').
Proof.
  split; [|split].
  - intros data σ' H. unfold run_cell2 in H.
    apply bind_OK in H as (df & Hdf%deref_OK & H).
    apply bind_OK in H as (df' & Hstage & [= <-]).
    exists df, df'. split; [done|]. split; [done|].
    apply censoring_weight_stage_inv in Hstage
      as (censored & x2 & x1 & m & _ & _ & _ & _ & ->). cbv zeta.
    replace ({[ "uncensored"; "p_uncensored"; "ipcw" ]} : gset string)
      with (({[ "uncensored" ]} ∪ {[ "p_uncensored" ]} ∪ {[ "p_uncensored" ]}
             ∪ {[ "ipcw" ]}) : gset string).
    2:{ apply set_eq. intros c.
        rewrite !elem_of_union, !elem_of_singleton. tauto. }
    repeat eapply unchanged_outside_trans; eapply unchanged_outside_setitem.
  - intros data l σ' H. unfold run_cell3 in H.
    apply bind_OK in H as (df & Hdf%deref_OK & H).
    apply bind_OK in H as (e & He & [= <- <-]).
    assert (Hfresh : fresh (dom σ) ∉ dom σ) by apply is_fresh.
    split; [done|]. split; [by exists e|].
    intros l Hl. apply lookup_insert_ne. by intros <-.
  - intros l σ' msm H. unfold run_cell4 in H.
    apply bind_OK in H as (df & Hdf%deref_OK & H).
    apply bind_OK in H as ([df' msm'] & Hstage & [= <- <-]).
    exists df, df'. split; [done|]. split; [done|].
    apply outcome_stage_inv in Hstage
      as (treatment & ipcw & outcome & exog & _ & _ & -> & _ & _).
    eapply unchanged_outside_trans; eapply unchanged_outside_setitem.
Qed.

Lemma stage_ownership_witness :
  (∃ σ' df',
     run_cell2 (SM := threshold_statsmodels) 0 {[ 0%nat := cohort ]} = OK σ'
     ∧ σ' = <[ 0%nat := df' ]> {[ 0%nat := cohort ]}
     ∧ unchanged_outside {[ "uncensored"; "p_uncensored"; "ipcw" ]} cohort df')
  ∧ (∃ l σ',
       run_cell3 0 {[ 0%nat := cohort ]} = OK (l, σ')
       ∧ l ≠ 0%nat ∧ σ' !! 0%nat = Some cohort)
  ∧ (∃ σ' df',
       run_cell4 (SM := threshold_statsmodels) 0 {[ 0%nat := expanded_cohort ]}
       = OK (σ', tt)
       ∧ σ' = <[ 0%nat := df' ]> {[ 0%nat := expanded_cohort ]}
       ∧ unchanged_outside {[ "assigned_treatment"; "ipcw_winsor" ]}
           expanded_cohort df').
Proof.
  destruct (stage_ownership (SM := threshold_statsmodels) {[ 0%nat := cohort ]})
    as (H2 & H3 & _).
  destruct (stage_ownership (SM := threshold_statsmodels)
              {[ 0%nat := expanded_cohort ]}) as (_ & _ & H4).
  split; [|split].
  - destruct (H2 0%nat _ eq_refl) as (df & df' & Hdf & Hσ & Hsame).
    rewrite lookup_singleton_eq in Hdf. injection Hdf as <-.
    by eexists _, df'.
  - destruct (H3 0%nat _ _ eq_refl) as (Hfresh & _ & Hkeep).
    eexists _, _. split; [reflexivity|]. split.
    + intros Heq. apply Hfresh. rewrite Heq. by vm_compute.
    + rewrite Hkeep; [apply lookup_singleton_eq|by vm_compute].
  - destruct (H4 0%nat _ tt eq_refl) as (df & df' & Hdf & Hσ & Hsame).
    rewrite lookup_singleton_eq in Hdf. injection Hdf as <-.
    by eexists _, df'.
Defined.

(** * Further properties of the cells *)

(** ** The expander: errors, schema, composition *)

Lemma expand_trials_of_rows (df e : DataFrame) :
  expand_trials df = OK e → e = DataFrame_of_rows (Series_dtype df) (rows e).
Proof.
  unfold expand_trials. intros H. bind_inv H as out Hout.
  by injection H as <-.
Qed.

(** X1.  On a table with at least one row and no [eligible] column,
    [expand_trials] raises [KeyError('eligible')]. *)
Theorem expand_trials_missing_eligible (df : DataFrame) :
  wf_frame df → rows df ≠ [] → "eligible" ∉ columns df →
  expand_trials df = Raise (KeyError "eligible").
Proof.
  intros Hwf Hne Hcol. unfold expand_trials, iterrows, wf_frame in *.
  destruct (rows df) as [|row it]; [done|].
  apply Forall_cons in Hwf as [Hrow _]. rewrite fmap_cons.
  cbn [expand_loop]. unfold Series_getitem. rewrite !iterrow_lookup.
  assert (row !! "eligible" = None) as ->; [|done].
  apply not_elem_of_dom. by rewrite Hrow.
Qed.

Lemma expand_trials_missing_eligible_witness :
  expand_trials no_eligible_column = Raise (KeyError "eligible").
Proof.
  apply expand_trials_missing_eligible.
  - repeat constructor.
  - discriminate.
  - by vm_compute.
Defined.

Lemma expand_loop_missing_period (it acc : list Series) :
  Forall (λ r : Series, is_Some (r !! "eligible") ∧ r !! "period" = None) it →
  Exists (λ r : Series, is_eligible r = true) it →
  expand_loop it acc = Raise (KeyError "period").
Proof.
  induction 1 as [|row it [[v Hv] Hp] _ IH]; intros Hex.
  - by apply Exists_nil in Hex.
  - simpl. unfold Series_getitem. rewrite Hv. simpl.
    destruct (Qeq_bool v 1) eqn:Hel.
    + by rewrite Hp.
    + apply IH. apply Exists_cons in Hex as [Hrow|Hit]; [|done].
      unfold is_eligible in Hrow. rewrite Hv in Hrow. congruence.
Qed.

(** X2.  [period] is read for eligible rows only: on a table with an
    [eligible] column and no [period] column, [expand_trials] raises
    [KeyError('period')] as soon as some row has [eligible == 1]. *)
Theorem expand_trials_missing_period (df : DataFrame) :
  wf_frame df → "eligible" ∈ columns df → "period" ∉ columns df →
  Exists (λ r : Series, is_eligible r = true) (rows df) →
  expand_trials df = Raise (KeyError "period").
Proof.
  intros Hwf Hel Hp Hex. unfold expand_trials.
  rewrite expand_loop_missing_period; [done| |].
  - apply iterrows_Forall.
    { intros row [H1 H2]. rewrite !iterrow_lookup.
      split; [by apply fmap_is_Some|by rewrite H2]. }
    pose proof (wf_frame_lookup _ _ Hwf Hel) as Hsome.
    apply Forall_forall. intros r Hr. split.
    + by apply (proj1 (Forall_forall _ _) Hsome).
    + apply not_elem_of_dom.
      by rewrite (proj1 (Forall_forall _ _) Hwf r Hr).
  - unfold iterrows. apply Exists_fmap.
    eapply Exists_impl; [exact Hex|]. simpl. intros row Hrow.
    by rewrite iterrow_is_eligible.
Qed.

Lemma expand_trials_missing_period_witness :
  expand_trials no_period_column = Raise (KeyError "period").
Proof.
  apply expand_trials_missing_period.
  - repeat constructor.
  - by vm_compute.
  - by vm_compute.
  - apply Exists_cons_tl, Exists_cons_hd. reflexivity.
Defined.

Lemma union_list_const (D : gset string) (ds : list (gset string)) :
  ds ≠ [] → Forall (λ d, d = D) ds → ⋃ ds = D.
Proof.
  intros Hne H. induction H as [|d ds -> Hds IH]; [done|]. simpl.
  destruct ds as [|d' ds]; [simpl; by rewrite (right_id_L ∅ (∪))|].
  rewrite IH by done. by rewrite (idemp_L (∪)).
Qed.

Lemma expand_trials_wf_columns (df e : DataFrame) :
  wf_frame df → expand_trials df = OK e →
  wf_frame e
  ∧ (rows e = [] → columns e = ∅)
  ∧ (rows e ≠ [] →
     columns e = columns df ∪ {[ "trial_period"; "followup_time" ]}).
Proof.
  intros Hwf He.
  pose proof (expand_trials_inv _ _ He) as Hrows.
  assert (Hdom : Forall
            (λ r' : Series,
               dom r' = columns df ∪ {[ "trial_period"; "followup_time" ]})
            (rows e)).
  { apply Forall_lookup. intros i r' Hi.
    destruct (Forall2_lookup_r _ _ _ _ _ Hrows Hi) as (r & Hr & Hentry).
    rewrite (trial_entry_of_dom _ _ Hentry), iterrow_dom. f_equal.
    apply list_elem_of_lookup_2, list_elem_of_In, filter_In in Hr as [Hr _].
    apply list_elem_of_In in Hr.
    by apply (proj1 (Forall_forall _ _) Hwf). }
  assert (Hcols : rows e ≠ [] →
            columns e = columns df ∪ {[ "trial_period"; "followup_time" ]}).
  { intros Hne. rewrite (expand_trials_of_rows _ _ He). simpl.
    apply union_list_const.
    - by destruct (rows e).
    - by apply Forall_fmap. }
  split; [|split; [|done]].
  - destruct (decide (rows e = [])) as [Hnil|Hne].
    + unfold wf_frame. rewrite Hnil. constructor.
    + unfold wf_frame. by rewrite (Hcols Hne).
  - intros Hnil. rewrite (expand_trials_of_rows _ _ He). simpl.
    by rewrite Hnil.
Qed.

(** X3.  The expansion of a rectangular table is rectangular.  When at least
    one row is eligible its columns are those of the input and the two added
    ones; when none is, the result has no column at all. *)
Theorem expand_trials_schema (df e : DataFrame) :
  wf_frame df → expand_trials df = OK e →
  wf_frame e
  ∧ (rows e = [] → columns e = ∅)
  ∧ (rows e ≠ [] →
     columns e = columns df ∪ {[ "trial_period"; "followup_time" ]}).
Proof. apply expand_trials_wf_columns. Qed.

Lemma expand_trials_schema_witness :
  ∃ e, expand_trials cohort = OK e
       ∧ wf_frame e
       ∧ columns e = columns cohort ∪ {[ "trial_period"; "followup_time" ]}.
Proof.
  eexists. split; [reflexivity|].
  destruct (expand_trials_schema cohort _ (ltac:(repeat constructor)) eq_refl)
    as (Hwf & _ & Hcols).
  split; [exact Hwf|]. apply Hcols. discriminate.
Defined.

Lemma expand_trials_rows_eligible (df e : DataFrame) :
  expand_trials df = OK e →
  Forall
    (λ r' : Series,
       is_eligible r' = true
       ∧ is_Some (r' !! "period")
       ∧ r' !! "trial_period" = r' !! "period")
    (rows e).
Proof.
  intros Hrows%expand_trials_inv. apply Forall_lookup. intros i r' Hi.
  destruct (Forall2_lookup_r _ _ _ _ _ Hrows Hi) as (r & Hr & p & Hp & ->).
  apply list_elem_of_lookup_2, list_elem_of_In, filter_In in Hr as [_ Hel].
  rewrite <- (iterrow_is_eligible df) in Hel. unfold is_eligible in *.
  rewrite !lookup_insert_ne by done. rewrite lookup_insert_eq.
  rewrite Hp. by split; [|split; [eexists|]].
Qed.

(** X4.  Every row of an expansion passes the eligibility test itself, and
    its [trial_period] is its own [period]: no ineligible row is ever
    emitted. *)
Theorem expand_trials_only_eligible (df e : DataFrame) :
  expand_trials df = OK e →
  Forall
    (λ r' : Series,
       is_eligible r' = true
       ∧ is_Some (r' !! "period")
       ∧ r' !! "trial_period" = r' !! "period")
    (rows e).
Proof. apply expand_trials_rows_eligible. Qed.

Lemma expand_trials_only_eligible_witness :
  ∃ e, expand_trials cohort = OK e
       ∧ length (rows e) = 2%nat
       ∧ Forall (λ r' : Series, is_eligible r' = true) (rows e).
Proof.
  eexists. split; [reflexivity|]. split; [reflexivity|].
  eapply Forall_impl;
    [exact (expand_trials_only_eligible cohort _ eq_refl)|].
  by intros r' [H _].
Defined.

Lemma expand_loop_fixed (it acc : list Series) :
  Forall
    (λ r : Series,
       is_eligible r = true
       ∧ (∃ p, r !! "period" = Some p ∧ r !! "trial_period" = Some p)
       ∧ r !! "followup_time" = Some 0%Q) it →
  expand_loop it acc = OK (acc ++ it).
Proof.
  intros H. revert acc.
  induction H as [|row it (Hel & (p & Hp & Htp) & Hft) _ IH]; intros acc.
  - by rewrite app_nil_r.
  - simpl. unfold Series_getitem, is_eligible in *.
    destruct (row !! "eligible") as [v|]; [|done]. simpl.
    rewrite Hel, Hp. simpl.
    rewrite (insert_id row "trial_period" p) by done.
    rewrite (insert_id row "followup_time" 0%Q) by done.
    rewrite IH. by rewrite <- app_assoc.
Qed.

Lemma DataFrame_of_rows_Series_dtype (dt : dtype) (rs : list Series) :
  DataFrame_of_rows (Series_dtype (DataFrame_of_rows dt rs)) rs
  = DataFrame_of_rows dt rs.
Proof.
  unfold Series_dtype, all_int64. destruct dt; simpl.
  - by rewrite bool_decide_true.
  - case_bool_decide as Hsub; [|done]. unfold DataFrame_of_rows. f_equal.
    apply set_eq. intros c. split; [apply Hsub|].
    by intros ?%not_elem_of_empty.
Qed.

(** X5.  Expanding an expansion changes nothing: [expand_trials] run on its
    own output returns that output. *)
Theorem expand_trials_idempotent (df e : DataFrame) :
  expand_trials df = OK e → expand_trials e = OK e.
Proof.
  intros He. pose proof (expand_trials_rows_eligible _ _ He) as Hel.
  pose proof (expand_trials_followup_time _ _ He) as Hft.
  pose proof (expand_trials_of_rows _ _ He) as Hof.
  assert (Hit : iterrows e = rows e).
  { rewrite Hof. apply iterrows_of_rows. }
  unfold expand_trials. rewrite Hit, expand_loop_fixed.
  - simpl. f_equal. rewrite Hof.
    exact (DataFrame_of_rows_Series_dtype (Series_dtype df) (rows e)).
  - apply Forall_lookup. intros i r Hi.
    pose proof (Forall_lookup_1 _ _ _ _ Hel Hi) as (H1 & [p Hp] & Htp).
    pose proof (Forall_lookup_1 _ _ _ _ Hft Hi) as H0. simpl in H0.
    split; [done|]. split; [|done]. exists p. by rewrite Htp.
Qed.

Lemma expand_trials_idempotent_witness :
  expand_trials expanded_cohort = OK expanded_cohort.
Proof. exact (expand_trials_idempotent weighted_cohort _ eq_refl). Defined.

Lemma expand_loop_app (it1 it2 acc : list Series) :
  expand_loop (it1 ++ it2) acc = expand_loop it1 acc ≫= expand_loop it2.
Proof.
  revert acc. induction it1 as [|row it1 IH]; intros acc; [done|]. simpl.
  destruct (Series_getitem row "eligible") as [v|]; [|done]. simpl.
  destruct (Qeq_bool v 1); [|apply IH].
  destruct (Series_getitem row "period") as [p|]; [|done]. simpl. apply IH.
Qed.

Lemma expand_loop_acc (it acc : list Series) :
  expand_loop it acc = (out ← expand_loop it []; OK (acc ++ out)).
Proof.
  revert acc. induction it as [|row it IH]; intros acc; simpl.
  - by rewrite app_nil_r.
  - destruct (Series_getitem row "eligible") as [v|]; [|done]. simpl.
    destruct (Qeq_bool v 1); [|apply IH].
    destruct (Series_getitem row "period") as [p|]; [|done]. simpl.
    rewrite (IH (acc ++ _)), (IH [_]).
    destruct (expand_loop it []); simpl; [|done]. by rewrite <- app_assoc.
Qed.

(** X6.  The expansion works row by row: the rows of a table made of two
    blocks expand to the expansion of the first block followed by the
    expansion of the second (the blocks being tables with the columns and
    the dtypes of the whole). *)
Theorem expand_trials_app (cs ns : gset string) (rs1 rs2 : list Series)
    (e1 e2 : DataFrame) :
  expand_trials (mkDataFrame cs ns rs1) = OK e1 →
  expand_trials (mkDataFrame cs ns rs2) = OK e2 →
  expand_trials (mkDataFrame cs ns (rs1 ++ rs2))
  = OK (DataFrame_of_rows (Series_dtype (mkDataFrame cs ns (rs1 ++ rs2)))
          (rows e1 ++ rows e2)).
Proof.
  unfold expand_trials. intros H1 H2.
  bind_inv H1 as o1 Ho1. injection H1 as <-.
  bind_inv H2 as o2 Ho2. injection H2 as <-.
  change (iterrows (mkDataFrame cs ns (rs1 ++ rs2)))
    with (iterrow (mkDataFrame cs ns rs1) <$> (rs1 ++ rs2)).
  rewrite fmap_app.
  change (iterrow (mkDataFrame cs ns rs1) <$> rs1)
    with (iterrows (mkDataFrame cs ns rs1)).
  change (iterrow (mkDataFrame cs ns rs1) <$> rs2)
    with (iterrows (mkDataFrame cs ns rs2)).
  rewrite expand_loop_app, Ho1. simpl.
  by rewrite expand_loop_acc, Ho2.
Qed.

Lemma expand_trials_app_witness :
  ∃ e, expand_trials
         (mkDataFrame (columns cohort) int64_columns ([row_a; row_b] ++ [row_c]))
       = OK e
       ∧ length (rows e) = 2%nat.
Proof.
  eexists. split.
  - exact (expand_trials_app (columns cohort) int64_columns
             [row_a; row_b] [row_c] _ _ eq_refl eq_refl).
  - reflexivity.
Defined.

(** ** Assignments into a frame *)

Lemma assign_column_same (c : string) (rs : list Series) (col : list Q) :
  Forall2 (λ (r : Series) v, r !! c = Some v) rs col →
  assign_column c rs col = rs.
Proof.
  induction 1 as [|r v rs col Hr _ IH]; [done|]. simpl.
  by rewrite (insert_id r c v), IH.
Qed.

(** Writing back the column a frame already holds leaves the frame as it
    is. *)
Lemma setitem_same {dt : dtype} (df : DataFrame) (c : string) (col : list Q) :
  getitem df c = OK col → dtype_of df c = dt → setitem_as dt df c col = df.
Proof.
  intros [Hc Hcol]%getitem_OK Hdt. destruct df as [cs ns rs].
  unfold setitem_as, dtype_of in *. simpl in *. f_equal.
  - rewrite (comm_L (∪)).
    apply subseteq_union_1_L. by apply singleton_subseteq_l.
  - destruct (decide (c ∈ ns)) as [Hin|Hnot]; subst dt.
    + rewrite (comm_L (∪)).
      apply subseteq_union_1_L. by apply singleton_subseteq_l.
    + apply set_eq. intros c'. rewrite elem_of_difference, elem_of_singleton.
      split; [by intros [? _]|]. intros Hc'. split; [done|]. by intros ->.
  - by apply assign_column_same.
Qed.

Lemma assign_column_twice (c : string) (rs : list Series) (col1 col2 : list Q) :
  assign_column c (assign_column c rs col1) col2 = assign_column c rs col2.
Proof.
  revert col1 col2.
  induction rs as [|r rs IH]; intros [|v1 col1] [|v2 col2]; simpl;
    try done; rewrite IH; f_equal.
  - apply delete_delete_eq.
  - apply insert_delete_eq.
  - apply delete_insert_eq.
  - apply insert_insert_eq.
Qed.

(** A second assignment to a column replaces the first. *)
Lemma setitem_setitem {dt1 dt2 : dtype} (df : DataFrame) (c : string)
    (col1 col2 : list Q) :
  setitem_as dt2 (setitem_as dt1 df c col1) c col2 = setitem_as dt2 df c col2.
Proof.
  unfold setitem_as. simpl. f_equal.
  - by rewrite <- (assoc_L (∪)), (idemp_L (∪)).
  - apply set_eq. intros c'. destruct dt1, dt2;
      rewrite ?elem_of_union, ?elem_of_difference, ?elem_of_union,
        ?elem_of_difference, !elem_of_singleton;
      destruct (decide (c' = c)); tauto.
  - apply assign_column_twice.
Qed.

Lemma dtype_of_setitem {dt : dtype} (df : DataFrame) (c c' : string)
    (col : list Q) :
  dtype_of (setitem_as dt df c col) c'
  = if decide (c = c') then dt else dtype_of df c'.
Proof.
  unfold dtype_of, setitem_as. simpl.
  destruct (decide (c = c')) as [<-|Hne].
  - destruct dt.
    + rewrite decide_True; [done|]. apply elem_of_union. right.
      by apply elem_of_singleton.
    + rewrite decide_False; [done|]. rewrite elem_of_difference.
      intros [_ H]. apply H. by apply elem_of_singleton.
  - destruct dt; destruct (decide (c' ∈ ints df)) as [Hin|Hnot].
    + rewrite decide_True; [done|]. apply elem_of_union. by left.
    + rewrite decide_False; [done|]. rewrite elem_of_union, elem_of_singleton.
      intros [?|?]; [done|]. by subst.
    + rewrite decide_True; [done|]. rewrite elem_of_difference.
      split; [done|]. rewrite elem_of_singleton. by intros ->.
    + rewrite decide_False; [done|]. rewrite elem_of_difference.
      by intros [? _].
Qed.

Lemma setitem_wf {dt : dtype} (df : DataFrame) (c : string) (col : list Q) :
  wf_frame df → length col = length (rows df) →
  wf_frame (setitem_as dt df c col).
Proof.
  unfold wf_frame, setitem_as. simpl. generalize (columns df). intros D.
  generalize (rows df). intros rs Hwf. revert col.
  induction Hwf as [|r rs Hr _ IH]; intros [|v col] Hlen; simpl;
    try done; constructor.
  - rewrite dom_insert_L, Hr. apply (comm_L (∪)).
  - apply IH. by injection Hlen.
Qed.

(** ** Cell 2: what it reads, what it writes, running it again *)

(** With its three columns read, cell 2 ends as the fit ends. *)
Lemma censoring_weight_stage_fit `{SM : Statsmodels} (data : DataFrame)
    (censored x2 x1 : list Q) :
  getitem data "censored" = OK censored →
  getitem data "x2" = OK x2 →
  getitem data "x1" = OK x1 →
  censoring_weight_stage data
  = (m ← logit_fit (Series_apply (λ c, 1 - c)%Q censored) (zip x2 x1);
     OK (let predicted := zip_with (logit_predict m) x2 x1 in
         let p_uncensored := clip_lower (1 # 100) predicted in
         setitem
           (setitem
              (setitem
                 (setitem_as (dtype_of data "censored") data "uncensored"
                    (Series_apply (λ c, 1 - c)%Q censored))
                 "p_uncensored" predicted)
              "p_uncensored" p_uncensored)
           "ipcw" (Series_apply (λ p, 1 / p)%Q p_uncensored))).
Proof.
  intros Hcens Hx2 Hx1.
  unfold censoring_weight_stage. rewrite Hcens. simpl.
  rewrite formula_column_setitem.
  2:{ unfold Series_apply.
      by rewrite length_fmap, (getitem_length _ _ _ Hcens). }
  simpl. rewrite !formula_column_setitem_ne by done.
  rewrite !(formula_column_of _ _ _ Hx2), !(formula_column_of _ _ _ Hx1).
  simpl.
  destruct (logit_fit _ _) as [m|err]; [|done]. simpl.
  rewrite getitem_setitem.
  2:{ rewrite length_zip_with, setitem_length.
      rewrite (getitem_length _ _ _ Hx2), (getitem_length _ _ _ Hx1). lia. }
  simpl. rewrite getitem_setitem.
  2:{ unfold clip_lower. rewrite length_fmap, length_zip_with, !setitem_length.
      rewrite (getitem_length _ _ _ Hx2), (getitem_length _ _ _ Hx1). lia. }
  done.
Qed.

Lemma censoring_weight_stage_run `{SM : Statsmodels} (data : DataFrame)
    (censored x2 x1 : list Q) (m : LogitResults) :
  getitem data "censored" = OK censored →
  getitem data "x2" = OK x2 →
  getitem data "x1" = OK x1 →
  logit_fit (Series_apply (λ c, 1 - c)%Q censored) (zip x2 x1) = OK m →
  censoring_weight_stage data
  = OK (let predicted := zip_with (logit_predict m) x2 x1 in
        let p_uncensored := clip_lower (1 # 100) predicted in
        setitem
          (setitem
             (setitem
                (setitem_as (dtype_of data "censored") data "uncensored"
                   (Series_apply (λ c, 1 - c)%Q censored))
                "p_uncensored" predicted)
             "p_uncensored" p_uncensored)
          "ipcw" (Series_apply (λ p, 1 / p)%Q p_uncensored)).
Proof.
  intros Hcens Hx2 Hx1 Hm.
  rewrite (censoring_weight_stage_fit data censored x2 x1) by done.
  by rewrite Hm.
Qed.

(** The dtypes of the columns cell 2 writes. *)
Lemma censoring_weight_stage_dtypes `{SM : Statsmodels}
    (data data' : DataFrame) :
  censoring_weight_stage data = OK data' →
  dtype_of data' "uncensored" = dtype_of data' "censored"
  ∧ dtype_of data' "p_uncensored" = float64
  ∧ dtype_of data' "ipcw" = float64.
Proof.
  intros (censored & x2 & x1 & m & _ & _ & _ & _ & ->)
    %censoring_weight_stage_inv. cbv zeta.
  by rewrite !dtype_of_setitem.
Qed.

(** The six columns cell 2 leaves behind, as it read or wrote them. *)
Lemma censoring_weight_stage_columns `{SM : Statsmodels}
    (data data' : DataFrame) :
  censoring_weight_stage data = OK data' →
  ∃ censored x2 x1 m,
    logit_fit (Series_apply (λ c, 1 - c)%Q censored) (zip x2 x1) = OK m
    ∧ length x2 = length (rows data) ∧ length x1 = length (rows data)
    ∧ length (rows data') = length (rows data)
    ∧ getitem data' "censored" = OK censored
    ∧ getitem data' "x2" = OK x2
    ∧ getitem data' "x1" = OK x1
    ∧ getitem data' "uncensored" = OK (Series_apply (λ c, 1 - c)%Q censored)
    ∧ getitem data' "p_uncensored"
      = OK (clip_lower (1 # 100) (zip_with (logit_predict m) x2 x1))
    ∧ getitem data' "ipcw"
      = OK (Series_apply (λ p, 1 / p)%Q
              (clip_lower (1 # 100) (zip_with (logit_predict m) x2 x1))).
Proof.
  intros (censored & x2 & x1 & m & Hc & Hx2 & Hx1 & Hm & ->)
    %censoring_weight_stage_inv.
  exists censored, x2, x1, m. cbv zeta.
  pose proof (getitem_length _ _ _ Hc) as Hlc.
  pose proof (getitem_length _ _ _ Hx2) as Hl2.
  pose proof (getitem_length _ _ _ Hx1) as Hl1.
  split; [done|]. split; [done|]. split; [done|].
  split; [by rewrite !setitem_length|].
  rewrite !(getitem_setitem_ne _ _ "censored") by done.
  rewrite !(getitem_setitem_ne _ _ "x2") by done.
  rewrite !(getitem_setitem_ne _ _ "x1") by done.
  rewrite !(getitem_setitem_ne _ _ "uncensored") by done.
  rewrite (getitem_setitem_ne _ "ipcw" "p_uncensored") by done.
  repeat split; try done.
  - apply getitem_setitem. unfold Series_apply. by rewrite length_fmap.
  - apply getitem_setitem. unfold clip_lower.
    rewrite length_fmap, length_zip_with, !setitem_length. lia.
  - apply getitem_setitem. unfold Series_apply, clip_lower.
    rewrite !length_fmap, length_zip_with, !setitem_length. lia.
Qed.



Lemma clip_cell_above (lo p : Q) : (lo <= p)%Q → clip_cell lo p = p.
Proof.
  unfold clip_cell. destruct (Qlt_le_dec p lo) as [Hlt|]; [|done].
  intros Hle. exfalso. by apply (Qlt_not_le p lo).
Qed.

(** X8.  The floor touches nothing else: a row whose fitted probability is
    at least 0.01 keeps that probability as [p_uncensored], and its [ipcw]
    is one over it. *)
Theorem unclipped_probability_kept `{SM : Statsmodels}
    (data data' : DataFrame) :
  censoring_weight_stage data = OK data' →
  ∃ censored x2 x1 m,
    getitem data "censored" = OK censored
    ∧ getitem data "x2" = OK x2
    ∧ getitem data "x1" = OK x1
    ∧ logit_fit (Series_apply (λ c, 1 - c)%Q censored) (zip x2 x1) = OK m
    ∧ Forall2
        (λ row row' : Series,
           ∀ v2 v1 : Q,
             row !! "x2" = Some v2 → row !! "x1" = Some v1 →
             (1 # 100 <= logit_predict m v2 v1)%Q →
             row' !! "p_uncensored" = Some (logit_predict m v2 v1)
             ∧ row' !! "ipcw" = Some (1 / logit_predict m v2 v1)%Q)
        (rows data) (rows data').
Proof.
  intros (censored & x2 & x1 & m & Hc & Hx2 & Hx1 & Hm & Hrows)
    %censoring_weight_stage_rows.
  exists censored, x2, x1, m. repeat split; [done..|].
  eapply Forall2_impl; [exact Hrows|]. simpl.
  intros row row' (v2 & v1 & Hv2 & Hv1 & Hp & Hw) u2 u1 Hu2 Hu1 Hle.
  assert (u2 = v2) as -> by congruence.
  assert (u1 = v1) as -> by congruence.
  by rewrite (clip_cell_above _ _ Hle) in Hp, Hw.
Qed.

Lemma unclipped_probability_kept_witness :
  ∃ data' row',
    censoring_weight_stage two_periods = OK data'
    ∧ rows data' !! 1%nat = Some row'
    ∧ row' !! "p_uncensored" = Some (9 # 10)
    ∧ row' !! "ipcw" = Some (1 / (9 # 10))%Q.
Proof.
  destruct (unclipped_probability_kept (SM := threshold_statsmodels)
              two_periods _ eq_refl)
    as (censored & x2 & x1 & m & _ & _ & _ & _ & Hrows).
  eexists _, _. split; [reflexivity|]. split; [reflexivity|].
  apply Forall2_cons_1 in Hrows as [_ Hrows].
  apply Forall2_cons_1 in Hrows as [Hrow _].
  apply (Hrow 0%Q 1%Q); [reflexivity|reflexivity|by vm_compute].
Defined.

(** X9.  Whatever the regression predicts (zero and negative numbers
    included), cell 2 never divides by zero: every row ends with
    [p_uncensored >= 0.01], and its [ipcw] is positive, at most 100, and the
    exact inverse of [p_uncensored]. *)
Theorem ipcw_is_inverse `{SM : Statsmodels} (data data' : DataFrame) :
  censoring_weight_stage data = OK data' →
  Forall
    (λ row : Series,
       ∃ p w : Q,
         row !! "p_uncensored" = Some p ∧ row !! "ipcw" = Some w
         ∧ (1 # 100 <= p)%Q ∧ (0 < w)%Q ∧ (w <= 100)%Q ∧ (w * p == 1)%Q)
    (rows data').
Proof.
  intros (censored & x2 & x1 & m & _ & _ & _ & _ & Hrows)
    %censoring_weight_stage_rows.
  apply Forall_lookup. intros i row' Hi.
  destruct (Forall2_lookup_r _ _ _ _ _ Hrows Hi)
    as (row & _ & v2 & v1 & _ & _ & Hp & Hw).
  pose proof (clip_cell_ge (1 # 100) (logit_predict m v2 v1)) as Hge.
  set (p := clip_cell (1 # 100) (logit_predict m v2 v1)) in *.
  assert (Hpos : (0 < p)%Q) by lra.
  exists p, (1 / p)%Q. repeat split; [done..| | |].
  - unfold Qdiv. rewrite Qmult_1_l. by apply Qinv_lt_0_compat.
  - by apply inverse_weight_le_100.
  - unfold Qdiv. rewrite Qmult_1_l, Qmult_comm. apply Qmult_inv_r.
    intros H0. rewrite H0 in Hpos. by apply (Qlt_irrefl 0).
Qed.

Lemma ipcw_is_inverse_witness :
  ∃ data',
    censoring_weight_stage cohort = OK data'
    ∧ Forall
        (λ row : Series,
           ∃ p w : Q,
             row !! "p_uncensored" = Some p ∧ row !! "ipcw" = Some w
             ∧ (w * p == 1)%Q)
        (rows data').
Proof.
  eexists. split; [reflexivity|].
  eapply Forall_impl;
    [exact (ipcw_is_inverse (SM := threshold_statsmodels) cohort _ eq_refl)|].
  simpl. intros row (p & w & Hp & Hw & _ & _ & _ & Hinv). by exists p, w.
Defined.

Lemma getitem_missing (df : DataFrame) (c : string) :
  c ∉ columns df → getitem df c = Raise (KeyError c).
Proof. intros Hc. unfold getitem. by rewrite decide_False. Qed.

Lemma formula_column_missing (df : DataFrame) (c : string) :
  c ∉ columns df → formula_column df c = Raise PatsyError.
Proof. intros Hc. unfold formula_column. by rewrite getitem_missing. Qed.

(** X10.  What cell 2 needs, and how it fails.  On a rectangular table:
    without a [censored] column it raises [KeyError('censored')]; with
    [censored] but without [x2] or without [x1] it fails in the formula
    interface, before any fit, whatever the regression library; with the
    three columns it ends as the fit on [1 - censored], [x2] and [x1] ends:
    with a table when the fit returns a model, with the fit's exception
    otherwise. *)
Theorem censoring_weight_stage_needs `{SM : Statsmodels} (data : DataFrame) :
  wf_frame data →
  ("censored" ∉ columns data →
   censoring_weight_stage data = Raise (KeyError "censored"))
  ∧ ("censored" ∈ columns data →
     "x2" ∉ columns data ∨ "x1" ∉ columns data →
     censoring_weight_stage data = Raise PatsyError)
  ∧ ("censored" ∈ columns data → "x2" ∈ columns data →
     "x1" ∈ columns data →
     ∃ censored x2 x1,
       getitem data "censored" = OK censored
       ∧ getitem data "x2" = OK x2
       ∧ getitem data "x1" = OK x1
       ∧ match logit_fit (Series_apply (λ c, 1 - c)%Q censored) (zip x2 x1)
         with
         | OK _ => ∃ data', censoring_weight_stage data = OK data'
         | Raise err => censoring_weight_stage data = Raise err
         end).
Proof.
  intros Hwf. split; [|split].
  - intros Hc. unfold censoring_weight_stage.
    by rewrite (getitem_missing _ _ Hc).
  - intros Hc Hmiss.
    destruct (getitem_total _ _ Hwf Hc) as [censored Hcens].
    unfold censoring_weight_stage. rewrite Hcens. simpl.
    rewrite formula_column_setitem.
    2:{ unfold Series_apply.
        by rewrite length_fmap, (getitem_length _ _ _ Hcens). }
    simpl. rewrite !formula_column_setitem_ne by done.
    destruct (decide ("x2" ∈ columns data)) as [H2|H2].
    + destruct (getitem_total _ _ Hwf H2) as [x2 Hx2].
      rewrite (formula_column_of _ _ _ Hx2). simpl.
      destruct Hmiss as [Hmiss|Hmiss]; [done|].
      by rewrite (formula_column_missing _ _ Hmiss).
    + by rewrite (formula_column_missing _ _ H2).
  - intros Hc H2 H1.
    destruct (getitem_total _ _ Hwf Hc) as [censored Hcens].
    destruct (getitem_total _ _ Hwf H2) as [x2 Hx2].
    destruct (getitem_total _ _ Hwf H1) as [x1 Hx1].
    exists censored, x2, x1. split; [done|]. split; [done|]. split; [done|].
    rewrite (censoring_weight_stage_fit data censored x2 x1) by done.
    destruct (logit_fit _ _) as [m|err]; [by eexists|done].
Qed.

Lemma cohort_wf : wf_frame cohort.
Proof. repeat constructor. Qed.

Lemma censoring_weight_stage_needs_witness :
  censoring_weight_stage (SM := threshold_statsmodels) no_period_column
  = Raise (KeyError "censored")
  ∧ ∃ data',
      censoring_weight_stage (SM := threshold_statsmodels) cohort = OK data'.
Proof.
  assert (Hwf : wf_frame no_period_column) by (repeat constructor).
  destruct (censoring_weight_stage_needs (SM := threshold_statsmodels)
              no_period_column Hwf) as (Hmissing & _ & _).
  destruct (censoring_weight_stage_needs (SM := threshold_statsmodels)
              cohort cohort_wf) as (_ & _ & Hrun).
  split.
  - apply Hmissing. by vm_compute.
  - destruct Hrun as (censored & x2 & x1 & _ & _ & _ & Hfit);
      [by vm_compute..|].
    exact Hfit.
Defined.

(** X11.  Running cell 2 a second time on the table it has just written
    leaves that table exactly as it is. *)
Theorem censoring_weight_stage_rerun `{SM : Statsmodels}
    (data data' : DataFrame) :
  censoring_weight_stage data = OK data' →
  censoring_weight_stage data' = OK data'.
Proof.
  intros Hrun.
  destruct (censoring_weight_stage_dtypes _ _ Hrun) as (Hd1 & Hd2 & Hd3).
  destruct (censoring_weight_stage_columns _ _ Hrun)
    as (censored & x2 & x1 & m & Hm & _ & _ & _ & Hc & Hx2 & Hx1 & Hu
        & Hp & Hw).
  rewrite (censoring_weight_stage_run data' censored x2 x1 m) by done.
  cbv zeta. f_equal.
  rewrite (setitem_same data' "uncensored") by done.
  rewrite setitem_setitem.
  rewrite (setitem_same data' "p_uncensored") by done.
  by rewrite (setitem_same data' "ipcw").
Qed.

Lemma censoring_weight_stage_rerun_witness :
  censoring_weight_stage weighted_cohort = OK weighted_cohort.
Proof.
  exact (censoring_weight_stage_rerun (SM := threshold_statsmodels)
           cohort _ eq_refl).
Defined.

(** X12.  Cell 2 keeps a rectangular table rectangular, with the same
    number of rows. *)
Theorem censoring_weight_stage_shape `{SM : Statsmodels}
    (data data' : DataFrame) :
  wf_frame data →
  censoring_weight_stage data = OK data' →
  wf_frame data' ∧ length (rows data') = length (rows data).
Proof.
  intros Hwf (censored & x2 & x1 & m & Hc & Hx2 & Hx1 & _ & ->)
    %censoring_weight_stage_inv. cbv zeta.
  pose proof (getitem_length _ _ _ Hc) as Hlc.
  pose proof (getitem_length _ _ _ Hx2) as Hl2.
  pose proof (getitem_length _ _ _ Hx1) as Hl1.
  split; [|by rewrite !setitem_length].
  repeat apply setitem_wf; try done;
    unfold Series_apply, clip_lower;
    rewrite ?length_fmap, ?length_zip_with, ?setitem_length; lia.
Qed.

Lemma censoring_weight_stage_shape_witness :
  wf_frame weighted_cohort ∧ length (rows weighted_cohort) = 3%nat.
Proof.
  exact (censoring_weight_stage_shape (SM := threshold_statsmodels)
           cohort _ cohort_wf eq_refl).
Defined.

(** ** Cell 4: what it reads, what it writes, running it again *)

(** With its columns read and the design matrix built, cell 4 ends as the
    fit ends. *)
Lemma outcome_stage_fit `{SM : Statsmodels} (e : DataFrame)
    (treatment ipcw outcome : list Q) (exog : list (string * list Q)) :
  getitem e "treatment" = OK treatment →
  getitem e "ipcw" = OK ipcw →
  dmatrices
    (setitem
       (setitem_as (dtype_of e "treatment") e "assigned_treatment" treatment)
       "ipcw_winsor" (winsorize ipcw)) = OK (outcome, exog) →
  outcome_stage e
  = (msm ← glm_fit outcome exog (winsorize ipcw);
     OK (setitem
           (setitem_as (dtype_of e "treatment") e "assigned_treatment"
              treatment)
           "ipcw_winsor" (winsorize ipcw), msm)).
Proof.
  intros Htr Hipcw Hdm. unfold outcome_stage. rewrite Htr. simpl.
  rewrite !getitem_setitem_ne by done. rewrite Hipcw. simpl.
  rewrite getitem_setitem.
  2:{ unfold Series_apply.
      by rewrite length_fmap, setitem_length, (getitem_length _ _ _ Hipcw). }
  simpl. fold (winsorize ipcw). by rewrite Hdm.
Qed.

Lemma outcome_stage_run `{SM : Statsmodels} (e : DataFrame)
    (treatment ipcw outcome : list Q) (exog : list (string * list Q))
    (msm : GLMResults) :
  getitem e "treatment" = OK treatment →
  getitem e "ipcw" = OK ipcw →
  dmatrices
    (setitem
       (setitem_as (dtype_of e "treatment") e "assigned_treatment" treatment)
       "ipcw_winsor" (winsorize ipcw)) = OK (outcome, exog) →
  glm_fit outcome exog (winsorize ipcw) = OK msm →
  outcome_stage e
  = OK (setitem
          (setitem_as (dtype_of e "treatment") e "assigned_treatment"
             treatment)
          "ipcw_winsor" (winsorize ipcw), msm).
Proof.
  intros Htr Hipcw Hdm Hfit.
  rewrite (outcome_stage_fit e treatment ipcw outcome exog) by done.
  by rewrite Hfit.
Qed.

(** The four columns cell 4 reads or writes, as it leaves them. *)
Lemma outcome_stage_columns `{SM : Statsmodels} (e e' : DataFrame)
    (msm : GLMResults) :
  outcome_stage e = OK (e', msm) →
  ∃ treatment ipcw,
    getitem e "treatment" = OK treatment
    ∧ getitem e "ipcw" = OK ipcw
    ∧ length (rows e') = length (rows e)
    ∧ getitem e' "treatment" = OK treatment
    ∧ getitem e' "assigned_treatment" = OK treatment
    ∧ getitem e' "ipcw" = OK ipcw
    ∧ getitem e' "ipcw_winsor" = OK (winsorize ipcw).
Proof.
  intros (treatment & ipcw & outcome & exog & Htr & Hipcw & -> & _ & _)
    %outcome_stage_inv.
  exists treatment, ipcw.
  pose proof (getitem_length _ _ _ Htr) as Hlt.
  pose proof (getitem_length _ _ _ Hipcw) as Hli.
  split; [done|]. split; [done|]. split; [by rewrite !setitem_length|].
  rewrite !(getitem_setitem_ne _ _ "treatment") by done.
  rewrite !(getitem_setitem_ne _ _ "ipcw") by done.
  rewrite (getitem_setitem_ne _ "ipcw_winsor" "assigned_treatment") by done.
  repeat split; try done.
  - by apply getitem_setitem.
  - apply getitem_setitem. unfold winsorize, Series_apply.
    by rewrite length_fmap, setitem_length.
Qed.

Lemma py_min_le_l (w q : Q) : (py_min w q <= w)%Q.
Proof.
  unfold py_min. destruct (Qlt_le_dec q w); [by apply Qlt_le_weak|].
  apply Qle_refl.
Qed.

(** X13.  After cell 4 every row has [assigned_treatment] equal to its
    [treatment], and an [ipcw_winsor] that is never above its [ipcw]; both
    [treatment] and [ipcw] are read, not written. *)
Theorem outcome_stage_writes `{SM : Statsmodels} (e e' : DataFrame)
    (msm : GLMResults) :
  outcome_stage e = OK (e', msm) →
  Forall2
    (λ row row' : Series,
       ∃ t w ww : Q,
         row !! "treatment" = Some t ∧ row !! "ipcw" = Some w
         ∧ row' !! "treatment" = Some t ∧ row' !! "ipcw" = Some w
         ∧ row' !! "assigned_treatment" = Some t
         ∧ row' !! "ipcw_winsor" = Some ww ∧ (ww <= w)%Q)
    (rows e) (rows e').
Proof.
  intros Hrun.
  destruct (outcome_stage_rows _ _ _ Hrun) as (ipcw0 & _ & _ & _ & Hrows).
  destruct (outcome_stage_columns _ _ _ Hrun)
    as (treatment & ipcw & [_ Htr]%getitem_OK & [_ Hipcw]%getitem_OK & Hlen
        & [_ Htr']%getitem_OK & [_ Hat]%getitem_OK & [_ Hipcw']%getitem_OK & _).
  apply Forall2_same_length_lookup_2; [done|].
  intros i row row' Hrow Hrow'.
  destruct (Forall2_lookup_l _ _ _ _ _ Htr Hrow) as (t & Hti & Hrt).
  destruct (Forall2_lookup_l _ _ _ _ _ Hipcw Hrow) as (w & Hwi & Hrw).
  destruct (Forall2_lookup_l _ _ _ _ _ Htr' Hrow') as (t' & Hti' & Hrt').
  destruct (Forall2_lookup_l _ _ _ _ _ Hat Hrow') as (a & Hai & Hra).
  destruct (Forall2_lookup_l _ _ _ _ _ Hipcw' Hrow') as (w' & Hwi' & Hrw').
  pose proof (Forall_lookup_1 _ _ _ _ Hrows Hrow')
    as (w1 & q99 & Hw1 & _ & Hww).
  assert (t' = t) as -> by congruence.
  assert (a = t) as -> by congruence.
  assert (w' = w) as -> by congruence.
  assert (w1 = w) as -> by congruence.
  exists t, w, (py_min w q99). repeat split; [done..|]. apply py_min_le_l.
Qed.

Lemma outcome_stage_writes_witness :
  ∃ e',
    outcome_stage expanded_cohort = OK (e', tt)
    ∧ Forall
        (λ row' : Series,
           row' !! "assigned_treatment" = row' !! "treatment")
        (rows e').
Proof.
  eexists. split; [reflexivity|].
  pose proof (outcome_stage_writes (SM := threshold_statsmodels)
                expanded_cohort _ tt eq_refl) as H.
  apply Forall_lookup. intros i row' Hi.
  destruct (Forall2_lookup_r _ _ _ _ _ H Hi)
    as (row & _ & t & w & ww & _ & _ & Ht & _ & Ha & _).
  by rewrite Ha, Ht.
Defined.

(** X14.  Running cell 4 a second time on the table it has just written
    leaves that table as it is and fits the same model: the cell reads
    [ipcw], never its own [ipcw_winsor]. *)
Theorem outcome_stage_rerun `{SM : Statsmodels} (e e' : DataFrame)
    (msm : GLMResults) :
  outcome_stage e = OK (e', msm) → outcome_stage e' = OK (e', msm).
Proof.
  intros Hrun.
  destruct (outcome_stage_columns _ _ _ Hrun)
    as (treatment & ipcw & Htr0 & Hipcw0 & _ & Htr & Hat & Hipcw & Hiw).
  destruct (outcome_stage_inv _ _ _ Hrun)
    as (treatment1 & ipcw1 & outcome & exog & Htr1 & Hipcw1 & He' & Hdm & Hfit).
  assert (treatment1 = treatment) as -> by congruence.
  assert (ipcw1 = ipcw) as -> by congruence.
  assert (Hd1 : dtype_of e' "assigned_treatment" = dtype_of e' "treatment")
    by (by rewrite He', !dtype_of_setitem).
  assert (Hd2 : dtype_of e' "ipcw_winsor" = float64)
    by (by rewrite He', !dtype_of_setitem).
  assert (Hsame : setitem
                    (setitem_as (dtype_of e' "treatment") e'
                       "assigned_treatment" treatment)
                    "ipcw_winsor" (winsorize ipcw) = e').
  { rewrite (setitem_same e' "assigned_treatment") by done.
    by apply setitem_same. }
  rewrite (outcome_stage_run e' treatment ipcw outcome exog msm);
    rewrite ?Hsame; done.
Qed.

Lemma outcome_stage_rerun_witness :
  ∃ e', outcome_stage expanded_cohort = OK (e', tt)
        ∧ outcome_stage e' = OK (e', tt).
Proof.
  eexists. split; [reflexivity|].
  exact (outcome_stage_rerun (SM := threshold_statsmodels)
           expanded_cohort _ tt eq_refl).
Defined.

(** X15.  Cell 4 needs the weights of cell 2.  If cell 2 is skipped, so that
    the table has no [ipcw] column, then on a rectangular table with
    [eligible], [period] and [treatment] columns and at least one eligible
    row, [expand_trials] returns a table and cell 4 raises
    [KeyError('ipcw')] on it. *)
Theorem outcome_stage_without_weights `{SM : Statsmodels} (data : DataFrame) :
  wf_frame data →
  "eligible" ∈ columns data → "period" ∈ columns data →
  "treatment" ∈ columns data → "ipcw" ∉ columns data →
  Exists (λ r : Series, is_eligible r = true) (rows data) →
  ∃ e, expand_trials data = OK e
       ∧ outcome_stage e = Raise (KeyError "ipcw").
Proof.
  intros Hwf Hel Hp Htr Hipcw Hex.
  destruct (expand_trials_total _ Hwf Hel Hp) as [e He].
  exists e. split; [done|].
  destruct (expand_trials_wf_columns _ _ Hwf He) as (Hwfe & _ & Hcols).
  assert (Hne : rows e ≠ []).
  { intros Hnil. pose proof (expand_trials_inv _ _ He) as H.
    rewrite Hnil in H. apply Forall2_nil_inv_r in H.
    apply Exists_exists in Hex as (r & Hr & Hrel).
    assert (Hin : In r (List.filter is_eligible (rows data))).
    { apply filter_In. split; [by apply list_elem_of_In|done]. }
    by rewrite H in Hin. }
  specialize (Hcols Hne).
  destruct (getitem_total e "treatment" Hwfe) as [treatment Ht].
  { rewrite Hcols. apply elem_of_union. by left. }
  unfold outcome_stage. rewrite Ht. simpl.
  rewrite getitem_setitem_ne by done.
  rewrite getitem_missing; [done|].
  rewrite Hcols. intros [H|H]%elem_of_union; [done|].
  by apply elem_of_union in H as [H%elem_of_singleton|H%elem_of_singleton].
Qed.

Lemma outcome_stage_without_weights_witness :
  ∃ e, expand_trials cohort = OK e
       ∧ outcome_stage (SM := threshold_statsmodels) e
         = Raise (KeyError "ipcw").
Proof.
  apply (outcome_stage_without_weights (SM := threshold_statsmodels) cohort).
  - exact cohort_wf.
  - by vm_compute.
  - by vm_compute.
  - by vm_compute.
  - by vm_compute.
  - apply Exists_cons_hd. reflexivity.
Defined.

(** ** The percentile and the clip *)

Lemma insert_sorted_elem_of (x y : Q) (l : list Q) :
  x ∈ insert_sorted y l → x = y ∨ x ∈ l.
Proof.
  induction l as [|z l IH]; simpl.
  - intros ->%list_elem_of_singleton. by left.
  - destruct (Qle_bool y z).
    + intros [->|H]%elem_of_cons; [by left|by right].
    + intros [->|H]%elem_of_cons; [right; by left|].
      destruct (IH H) as [->|Hl]; [by left|right; by right].
Qed.

Lemma sort_values_elem_of (x : Q) (col : list Q) :
  x ∈ sort_values col → x ∈ col.
Proof.
  unfold sort_values. induction col as [|y col IH]; simpl; [done|].
  intros [->|H]%insert_sorted_elem_of; [by left|right; by apply IH].
Qed.

Lemma insert_sorted_length (x : Q) (l : list Q) :
  length (insert_sorted x l) = S (length l).
Proof.
  induction l as [|y l IH]; simpl; [done|].
  destruct (Qle_bool x y); simpl; by rewrite ?IH.
Qed.

Lemma sort_values_length (col : list Q) :
  length (sort_values col) = length col.
Proof.
  unfold sort_values. induction col as [|y col IH]; simpl; [done|].
  by rewrite insert_sorted_length, IH.
Qed.

(** A quantile lies between two cells of the column. *)
Lemma quantile_convex (col : list Q) (q v : Q) :
  (0 <= q)%Q → (q <= 1)%Q → quantile col q = Some v →
  ∃ a b g : Q,
    a ∈ col ∧ b ∈ col ∧ (0 <= g)%Q ∧ (g <= 1)%Q ∧ v = (a + (b - a) * g)%Q.
Proof.
  intros Hq0 Hq1. destruct col as [|w0 col']; [done|].
  unfold quantile. set (col := w0 :: col').
  set (last := (Z.of_nat (length col) - 1)%Z).
  set (h := (inject_Z last * q)%Q). set (lo := Qfloor h).
  assert (Hlast : (0 <= last)%Z) by (unfold last, col; simpl; lia).
  assert (Hlast' : (0 <= inject_Z last)%Q)
    by (change 0%Q with (inject_Z 0); by rewrite <- Zle_Qle).
  assert (Hh0 : (0 <= h)%Q) by (by apply Qmult_le_0_compat).
  assert (Hh1 : (h <= inject_Z last)%Q).
  { unfold h. rewrite <- (Qmult_1_r (inject_Z last)) at 2.
    rewrite !(Qmult_comm (inject_Z last)).
    by apply Qmult_le_compat_r. }
  assert (Hlo0 : (0 <= lo)%Z).
  { change 0%Z with (Qfloor 0). by apply Qfloor_resp_le. }
  assert (Hlo1 : (lo <= last)%Z).
  { rewrite <- (Qfloor_Z last). by apply Qfloor_resp_le. }
  pose proof (Qfloor_le h) as Hfl. pose proof (Qlt_floor h) as Hfu.
  fold lo in Hfl, Hfu. rewrite inject_Z_plus in Hfu.
  intros [= <-].
  eexists _, _, (h - inject_Z lo)%Q. repeat split.
  - apply sort_values_elem_of, list_elem_of_In, nth_In.
    rewrite sort_values_length. unfold last in *. lia.
  - apply sort_values_elem_of, list_elem_of_In, nth_In.
    rewrite sort_values_length. unfold last in *. lia.
  - lra.
  - change (inject_Z 1) with 1%Q in Hfu. lra.
Qed.

Lemma quantile_ge (lo : Q) (col : list Q) (q v : Q) :
  (0 <= q)%Q → (q <= 1)%Q → Forall (λ w, lo <= w)%Q col →
  quantile col q = Some v → (lo <= v)%Q.
Proof.
  intros Hq0 Hq1 Hcol (a & b & g & Ha & Hb & Hg0 & Hg1 & ->)%quantile_convex;
    [|done..].
  apply (proj1 (Forall_forall _ _) Hcol) in Ha, Hb.
  assert (H1 : (0 <= (a - lo) * (1 - g))%Q)
    by (apply Qmult_le_0_compat; lra).
  assert (H2 : (0 <= (b - lo) * g)%Q) by (apply Qmult_le_0_compat; lra).
  assert (Heq : (a + (b - a) * g - lo == (a - lo) * (1 - g) + (b - lo) * g)%Q)
    by ring.
  lra.
Qed.

Lemma getitem_Forall (P : Q → Prop) (df : DataFrame) (c : string)
    (col : list Q) :
  getitem df c = OK col →
  Forall (λ r : Series, ∀ v, r !! c = Some v → P v) (rows df) →
  Forall P col.
Proof.
  intros [_ H]%getitem_OK Hrows. apply Forall_lookup. intros i v Hv.
  destruct (Forall2_lookup_r _ _ _ _ _ H Hv) as (r & Hr & Hrv).
  by apply (Forall_lookup_1 _ _ _ _ Hrows Hr).
Qed.

(** X17.  Winsorization never touches a smallest weight: a row whose [ipcw]
    is at most every [ipcw] of the table keeps it as [ipcw_winsor].  In a
    table with a single row nothing is clipped. *)
Theorem smallest_weight_unchanged `{SM : Statsmodels} (e e' : DataFrame)
    (msm : GLMResults) :
  outcome_stage e = OK (e', msm) →
  Forall
    (λ row : Series,
       ∀ w : Q,
         row !! "ipcw" = Some w →
         Forall (λ r : Series, ∀ w', r !! "ipcw" = Some w' → (w <= w')%Q)
           (rows e') →
         row !! "ipcw_winsor" = Some w)
    (rows e').
Proof.
  intros (ipcw & _ & Hipcw & _ & Hrows)%outcome_stage_rows.
  eapply Forall_impl; [exact Hrows|]. simpl.
  intros row (w1 & q99 & Hw1 & Hq & Hww) w Hw Hmin.
  assert (w1 = w) as -> by congruence.
  rewrite Hww. f_equal. apply py_min_below.
  apply (quantile_ge w ipcw (99 # 100)); [done..| |done].
  by apply (getitem_Forall _ _ _ _ Hipcw).
Qed.

Lemma smallest_weight_unchanged_witness :
  ∃ row,
    rows modelled_cohort !! 1%nat = Some row
    ∧ row !! "ipcw" = Some (1 / (9 # 10))%Q
    ∧ row !! "ipcw_winsor" = Some (1 / (9 # 10))%Q.
Proof.
  eexists. split; [reflexivity|]. split; [reflexivity|].
  pose proof (smallest_weight_unchanged (SM := threshold_statsmodels)
                expanded_cohort modelled_cohort tt eq_refl) as H.
  apply Forall_cons in H as [_ H]. apply Forall_cons in H as [H _].
  apply H; [reflexivity|].
  repeat constructor; intros w' [= <-]; by vm_compute.
Defined.

Lemma censoring_weight_rows_bounds `{SM : Statsmodels}
    (data data' : DataFrame) :
  predicts_probabilities SM →
  censoring_weight_stage data = OK data' →
  Forall
    (λ row : Series, ∃ w, row !! "ipcw" = Some w ∧ (1 <= w)%Q ∧ (w <= 100)%Q)
    (rows data').
Proof.
  intros Hprob (censored & x2 & x1 & m & _ & _ & _ & _ & Hrows)
    %censoring_weight_stage_rows.
  apply Forall_lookup. intros i row' Hi.
  destruct (Forall2_lookup_r _ _ _ _ _ Hrows Hi)
    as (row & _ & v2 & v1 & _ & _ & _ & Hw).
  destruct (Hprob m v2 v1) as [H0 H1].
  pose proof (clip_cell_ge (1 # 100) (logit_predict m v2 v1)) as Hge.
  eexists. split; [exact Hw|]. split.
  - apply inverse_weight_ge_1; [lra|by apply clip_cell_le].
  - by apply inverse_weight_le_100.
Qed.

(** X18.  End to end: with a regression that predicts probabilities, the
    frequency weights that cell 4 hands to the GLM, after cells 2 and 3,
    all lie between 1 and 100. *)
Theorem glm_weights_bounds `{SM : Statsmodels} (data data1 e e' : DataFrame)
    (msm : GLMResults) :
  predicts_probabilities SM →
  censoring_weight_stage data = OK data1 →
  expand_trials data1 = OK e →
  outcome_stage e = OK (e', msm) →
  ∃ outcome exog weights,
    glm_fit outcome exog weights = OK msm
    ∧ getitem e' "ipcw_winsor" = OK weights
    ∧ Forall (λ w, (1 <= w)%Q ∧ (w <= 100)%Q) weights.
Proof.
  intros Hprob Hc2 Hc3 Hc4.
  pose proof (censoring_weight_rows_bounds _ _ Hprob Hc2) as Hb1.
  pose proof (expand_trials_inv _ _ Hc3) as Hentries.
  destruct (outcome_stage_inv _ _ _ Hc4)
    as (treatment & ipcw & outcome & exog & _ & Hipcw & _ & _ & Hfit).
  destruct (outcome_stage_columns _ _ _ Hc4)
    as (t1 & i1 & _ & Hi1 & _ & _ & _ & _ & Hiw).
  assert (i1 = ipcw) as -> by congruence.
  exists outcome, exog, (winsorize ipcw). split; [done|]. split; [done|].
  assert (Hcol : Forall (λ w, (1 <= w)%Q ∧ (w <= 100)%Q) ipcw).
  { apply (getitem_Forall _ _ _ _ Hipcw).
    apply Forall_lookup. intros i r' Hi w Hw.
    destruct (Forall2_lookup_r _ _ _ _ _ Hentries Hi) as (r & Hr & Hentry).
    rewrite (trial_entry_of_lookup _ _ "ipcw" Hentry) in Hw by done.
    apply list_elem_of_lookup_2, list_elem_of_In, filter_In in Hr as [Hr _].
    apply list_elem_of_In in Hr.
    destruct (proj1 (Forall_forall _ _) Hb1 r Hr) as (w0 & Hw0 & H1 & H100).
    rewrite iterrow_lookup, Hw0 in Hw. simpl in Hw.
    rewrite iterrows_cell_exact in Hw; [by injection Hw as <-|].
    right. right. apply Qfloor_resp_le in H1, H100.
    change (Qfloor 1) with 1%Z in H1. change (Qfloor 100) with 100%Z in H100.
    lia. }
  unfold winsorize, Series_apply. apply Forall_fmap.
  destruct (quantile ipcw (99 # 100)) as [q99|] eqn:Hq; simpl; [|done].
  assert (Hq1 : (1 <= q99)%Q).
  { apply (quantile_ge 1 ipcw (99 # 100)); [done..| |done].
    eapply Forall_impl; [exact Hcol|]. by intros w [H _]. }
  eapply Forall_impl; [exact Hcol|]. simpl. intros w [Hw1 Hw100]. split.
  - unfold py_min. by destruct (Qlt_le_dec q99 w).
  - eapply Qle_trans; [apply py_min_le_l|done].
Qed.

Lemma glm_weights_bounds_witness :
  ∃ weights,
    getitem modelled_cohort "ipcw_winsor" = OK weights
    ∧ length weights = 2%nat
    ∧ Forall (λ w, (1 <= w)%Q ∧ (w <= 100)%Q) weights.
Proof.
  destruct (glm_weights_bounds (SM := threshold_statsmodels)
              cohort weighted_cohort expanded_cohort modelled_cohort tt
              threshold_predicts_probabilities eq_refl eq_refl eq_refl)
    as (outcome & exog & weights & _ & Hw & Hb).
  exists weights. split; [exact Hw|]. split; [|exact Hb].
  by rewrite (getitem_length _ _ _ Hw).
Defined.

(** ** From the loaded table to the fitted model *)

Lemma filter_eligible_length (l k : list Series) :
  Forall2 (λ r r' : Series, r' !! "eligible" = r !! "eligible") l k →
  length (List.filter is_eligible l) = length (List.filter is_eligible k).
Proof.
  induction 1 as [|r r' l k Hr _ IH]; [done|].
  assert (Hel : is_eligible r' = is_eligible r)
    by (unfold is_eligible; by rewrite Hr).
  simpl. rewrite Hel. destruct (is_eligible r); simpl; by rewrite IH.
Qed.

Lemma censoring_weight_stage_eligible `{SM : Statsmodels}
    (data data' : DataFrame) :
  censoring_weight_stage data = OK data' →
  Forall2 (λ r r' : Series, r' !! "eligible" = r !! "eligible")
    (rows data) (rows data').
Proof.
  intros (censored & x2 & x1 & m & _ & _ & _ & _ & ->)
    %censoring_weight_stage_inv. cbv zeta.
  assert (H : unchanged_outside
                ({[ "uncensored" ]} ∪ {[ "p_uncensored" ]}
                 ∪ {[ "p_uncensored" ]} ∪ {[ "ipcw" ]}) data
                (setitem
                   (setitem
                      (setitem
                         (setitem_as (dtype_of data "censored") data
                            "uncensored"
                            (Series_apply (λ c, 1 - c)%Q censored))
                         "p_uncensored" (zip_with (logit_predict m) x2 x1))
                      "p_uncensored"
                      (clip_lower (1 # 100)
                         (zip_with (logit_predict m) x2 x1)))
                   "ipcw"
                   (Series_apply (λ p, 1 / p)%Q
                      (clip_lower (1 # 100)
                         (zip_with (logit_predict m) x2 x1))))).
  { repeat eapply unchanged_outside_trans; eapply unchanged_outside_setitem. }
  destruct H as [_ H]. eapply Forall2_impl; [exact H|]. simpl.
  intros r r' Hrr'. apply Hrr'.
  rewrite !elem_of_union, !elem_of_singleton. intros [[[?|?]|?]|?]; done.
Qed.

(** X19.  End to end: the GLM is fitted on exactly as many observations as
    the loaded table has rows with [eligible == 1]; cell 2 changes no
    eligibility flag and cell 4 drops no row.  The response and the weights
    both have that length. *)
Theorem glm_observations `{SM : Statsmodels} (data data1 e e' : DataFrame)
    (msm : GLMResults) :
  censoring_weight_stage data = OK data1 →
  expand_trials data1 = OK e →
  outcome_stage e = OK (e', msm) →
  ∃ outcome exog weights,
    dmatrices e' = OK (outcome, exog)
    ∧ glm_fit outcome exog weights = OK msm
    ∧ length outcome = length (List.filter is_eligible (rows data))
    ∧ length weights = length (List.filter is_eligible (rows data))
    ∧ length (rows e') = length (List.filter is_eligible (rows data)).
Proof.
  intros Hc2 Hc3 Hc4.
  pose proof (filter_eligible_length _ _
                (censoring_weight_stage_eligible _ _ Hc2)) as Hcount.
  pose proof (Forall2_length _ _ _ (expand_trials_inv _ _ Hc3)) as Hlen3.
  destruct (outcome_stage_columns _ _ _ Hc4)
    as (t1 & i1 & _ & Hi1 & Hlen4 & _ & _ & _ & Hiw).
  destruct (outcome_stage_inv _ _ _ Hc4)
    as (treatment & ipcw & outcome & exog & _ & Hipcw & _ & Hdm & Hfit).
  assert (i1 = ipcw) as -> by congruence.
  exists outcome, exog, (winsorize ipcw).
  split; [done|]. split; [done|].
  assert (Hrows : length (rows e')
                  = length (List.filter is_eligible (rows data)))
    by congruence.
  split; [|split; [|done]].
  - unfold dmatrices in Hdm. bind_inv Hdm as y Hy.
    bind_inv Hdm as a Ha. bind_inv Hdm as x Hx. bind_inv Hdm as ft Hft.
    bind_inv Hdm as tp Htp. injection Hdm as <- _.
    apply formula_column_OK in Hy. by rewrite (getitem_length _ _ _ Hy).
  - by rewrite (getitem_length _ _ _ Hiw).
Qed.

Lemma glm_observations_witness :
  ∃ outcome exog weights,
    dmatrices modelled_cohort = OK (outcome, exog)
    ∧ glm_fit (Statsmodels := threshold_statsmodels) outcome exog weights
      = OK tt
    ∧ length outcome = 2%nat ∧ length weights = 2%nat.
Proof.
  destruct (glm_observations (SM := threshold_statsmodels)
              cohort weighted_cohort expanded_cohort modelled_cohort tt
              eq_refl eq_refl eq_refl)
    as (outcome & exog & weights & Hdm & Hfit & Hy & Hw & _).
  exists outcome, exog, weights.
  split; [exact Hdm|]. split; [exact Hfit|]. split; [exact Hy|exact Hw].
Defined.

(** ** Cell 4: the columns it needs, the shape it keeps *)

Lemma formula_column_total (df : DataFrame) (c : string) :
  wf_frame df → c ∈ columns df → ∃ col, formula_column df c = OK col.
Proof.
  intros Hwf Hc. destruct (getitem_total _ _ Hwf Hc) as [col Hcol].
  exists col. by apply formula_column_of.
Qed.

(** The design matrix of the table cell 4 has written into: it is built
    when the four columns the formula takes from the input are there, and
    patsy fails when one of them is missing. *)
Lemma dmatrices_written (dt : dtype) (e : DataFrame) (treatment w : list Q) :
  wf_frame e → length treatment = length (rows e) →
  (Exists (λ c : string, c ∉ columns e)
     [ "outcome"; "x2"; "followup_time"; "trial_period" ] →
   dmatrices
     (setitem (setitem_as dt e "assigned_treatment" treatment) "ipcw_winsor" w)
   = Raise PatsyError)
  ∧ (Forall (λ c : string, c ∈ columns e)
       [ "outcome"; "x2"; "followup_time"; "trial_period" ] →
     ∃ outcome exog,
       dmatrices
         (setitem (setitem_as dt e "assigned_treatment" treatment)
            "ipcw_winsor" w)
       = OK (outcome, exog)).
Proof.
  intros Hwf Hlen. unfold dmatrices.
  rewrite (formula_column_setitem_ne _ "ipcw_winsor" "assigned_treatment")
    by done.
  rewrite formula_column_setitem by done.
  rewrite !formula_column_setitem_ne by done.
  split.
  - rewrite !Exists_cons, Exists_nil. intros Hmiss.
    destruct (decide ("outcome" ∈ columns e)) as [Hy|Hy];
      [|by rewrite (formula_column_missing _ _ Hy)].
    destruct (formula_column_total _ _ Hwf Hy) as [y ->]. simpl.
    destruct (decide ("x2" ∈ columns e)) as [Hx|Hx];
      [|by rewrite (formula_column_missing _ _ Hx)].
    destruct (formula_column_total _ _ Hwf Hx) as [x ->]. simpl.
    destruct (decide ("followup_time" ∈ columns e)) as [Hft|Hft];
      [|by rewrite (formula_column_missing _ _ Hft)].
    destruct (formula_column_total _ _ Hwf Hft) as [ft ->]. simpl.
    destruct (decide ("trial_period" ∈ columns e)) as [Htp|Htp];
      [|by rewrite (formula_column_missing _ _ Htp)].
    tauto.
  - rewrite !Forall_cons. intros (Hy & Hx & Hft & Htp & _).
    destruct (formula_column_total _ _ Hwf Hy) as [y ->].
    destruct (formula_column_total _ _ Hwf Hx) as [x ->].
    destruct (formula_column_total _ _ Hwf Hft) as [ft ->].
    destruct (formula_column_total _ _ Hwf Htp) as [tp ->].
    simpl. by eexists _, _.
Qed.

(** X21.  What cell 4 needs, and how it fails.  On a rectangular table:
    without a [treatment] column it raises [KeyError('treatment')]; with it
    but without [ipcw], [KeyError('ipcw')]; with both but without one of
    [outcome], [x2], [followup_time], [trial_period] it fails in the formula
    interface, before any fit, whatever the regression library; with the six
    columns the design matrix is built and the cell ends as the GLM fit on
    it, weighted by the winsorized [ipcw], ends: with the written table and
    the model, or with the fit's exception. *)
Theorem outcome_stage_needs `{SM : Statsmodels} (e : DataFrame) :
  wf_frame e →
  ("treatment" ∉ columns e → outcome_stage e = Raise (KeyError "treatment"))
  ∧ ("treatment" ∈ columns e → "ipcw" ∉ columns e →
     outcome_stage e = Raise (KeyError "ipcw"))
  ∧ ("treatment" ∈ columns e → "ipcw" ∈ columns e →
     Exists (λ c : string, c ∉ columns e)
       [ "outcome"; "x2"; "followup_time"; "trial_period" ] →
     outcome_stage e = Raise PatsyError)
  ∧ ("treatment" ∈ columns e → "ipcw" ∈ columns e →
     Forall (λ c : string, c ∈ columns e)
       [ "outcome"; "x2"; "followup_time"; "trial_period" ] →
     ∃ ipcw e' outcome exog,
       getitem e "ipcw" = OK ipcw
       ∧ dmatrices e' = OK (outcome, exog)
       ∧ match glm_fit outcome exog (winsorize ipcw) with
         | OK msm => outcome_stage e = OK (e', msm)
         | Raise err => outcome_stage e = Raise err
         end).
Proof.
  intros Hwf. split; [|split; [|split]].
  - intros Htr. unfold outcome_stage. by rewrite (getitem_missing _ _ Htr).
  - intros Htr Hipcw.
    destruct (getitem_total _ _ Hwf Htr) as [treatment Ht].
    unfold outcome_stage. rewrite Ht. simpl.
    rewrite getitem_setitem_ne by done.
    by rewrite (getitem_missing _ _ Hipcw).
  - intros Htr Hipcw Hmiss.
    destruct (getitem_total _ _ Hwf Htr) as [treatment Ht].
    destruct (getitem_total _ _ Hwf Hipcw) as [ipcw Hi].
    destruct (dmatrices_written (dtype_of e "treatment") e treatment
                (winsorize ipcw) Hwf (getitem_length _ _ _ Ht))
      as [Hdm _].
    unfold outcome_stage. rewrite Ht. simpl.
    rewrite !getitem_setitem_ne by done. rewrite Hi. simpl.
    rewrite getitem_setitem.
    2:{ unfold Series_apply.
        by rewrite length_fmap, setitem_length, (getitem_length _ _ _ Hi). }
    simpl. fold (winsorize ipcw). by rewrite (Hdm Hmiss).
  - intros Htr Hipcw Hcols.
    destruct (getitem_total _ _ Hwf Htr) as [treatment Ht].
    destruct (getitem_total _ _ Hwf Hipcw) as [ipcw Hi].
    destruct (dmatrices_written (dtype_of e "treatment") e treatment
                (winsorize ipcw) Hwf (getitem_length _ _ _ Ht))
      as [_ Hdm].
    destruct (Hdm Hcols) as (outcome & exog & Hdm').
    eexists ipcw, _, outcome, exog. split; [done|]. split; [exact Hdm'|].
    rewrite (outcome_stage_fit e treatment ipcw outcome exog) by done.
    by destruct (glm_fit _ _ _).
Qed.

Lemma expanded_cohort_wf : wf_frame expanded_cohort.
Proof. repeat constructor. Qed.

Lemma outcome_stage_needs_witness :
  outcome_stage (SM := threshold_statsmodels) cohort = Raise (KeyError "ipcw")
  ∧ ∃ e' msm,
      outcome_stage (SM := threshold_statsmodels) expanded_cohort
      = OK (e', msm).
Proof.
  destruct (outcome_stage_needs (SM := threshold_statsmodels)
              cohort cohort_wf) as (_ & Hmissing & _).
  destruct (outcome_stage_needs (SM := threshold_statsmodels)
              expanded_cohort expanded_cohort_wf) as (_ & _ & _ & Hrun).
  split.
  - apply Hmissing; by vm_compute.
  - destruct Hrun as (ipcw & e' & outcome & exog & _ & _ & Hfit).
    + by vm_compute.
    + by vm_compute.
    + repeat constructor; by vm_compute.
    + exists e', tt. exact Hfit.
Defined.

(** X22.  Cell 4 keeps a rectangular table rectangular, with the same
    number of rows; its columns are those it received and the two it
    writes. *)
Theorem outcome_stage_shape `{SM : Statsmodels} (e e' : DataFrame)
    (msm : GLMResults) :
  wf_frame e →
  outcome_stage e = OK (e', msm) →
  wf_frame e'
  ∧ length (rows e') = length (rows e)
  ∧ columns e' = columns e ∪ {[ "assigned_treatment"; "ipcw_winsor" ]}.
Proof.
  intros Hwf (treatment & ipcw & outcome & exog & Htr & Hipcw & -> & _ & _)
    %outcome_stage_inv.
  pose proof (getitem_length _ _ _ Htr) as Hlt.
  pose proof (getitem_length _ _ _ Hipcw) as Hli.
  split; [|split].
  - repeat apply setitem_wf; try done.
    unfold winsorize, Series_apply. by rewrite length_fmap, setitem_length.
  - by rewrite !setitem_length.
  - simpl. by rewrite <- (assoc_L (∪)).
Qed.

Lemma outcome_stage_shape_witness :
  wf_frame modelled_cohort
  ∧ length (rows modelled_cohort) = 2%nat
  ∧ columns modelled_cohort
    = columns expanded_cohort ∪ {[ "assigned_treatment"; "ipcw_winsor" ]}.
Proof.
  exact (outcome_stage_shape (SM := threshold_statsmodels)
           expanded_cohort modelled_cohort tt expanded_cohort_wf eq_refl).
Defined.
